(** * A shallow embedding of spc-player (SpcWriter and Spcduino) *)

From Stdlib Require Import ZArith Lia Bool.
From stdpp Require Import base list strings.
Import ListNotations.
Open Scope Z_scope.

(* ------------------------------------------------------------------ *)
(** ** Bytes, typed arrays and the 64KB program image *)

(** Assigning a number to an element of a [Buffer] / [Uint8Array] stores
    [ToUint8] of it, i.e. the value modulo 256. *)
Definition ToUint8 (v : Z) : Z := v mod 256.

(** The SPC program memory: 0x10000 bytes, indexed by address. *)
Definition image := Z -> Z.

Definition IMAGE_SIZE : Z := 0x10000.

(** [programData[a] = v]: out-of-range stores on a typed array are ignored. *)
Definition store (m : image) (a v : Z) : image :=
  fun x => if (0 <=? a) && (a <? IMAGE_SIZE) && (x =? a) then ToUint8 v else m x.

(** [src.copy(target, pos)]: copies [src] into [target] starting at [pos]. *)
Fixpoint blit (src : list Z) (m : image) (pos : Z) : image :=
  match src with
  | [] => m
  | b :: r => blit r (store m pos b) (pos + 1)
  end.

(** The parsed SPC file, [ISpc] from spc-reader. *)
Record ISpc := mkSpc {
  programData : image;
  dspRegisters : image;
  regA : Z; regX : Z; regY : Z; regPSW : Z;
  regPC : Z; regSP : Z
}.

(** A snapshot as the reader delivers it: byte registers, a 16-bit PC. *)
Definition wf_spc (s : ISpc) : Prop :=
  0 <= regA s < 256 /\ 0 <= regX s < 256 /\ 0 <= regY s < 256 /\
  0 <= regPSW s < 256 /\ 0 <= regPC s < 65536 /\ 0 <= regSP s < 256.

(* ------------------------------------------------------------------ *)
(** ** Checksum (Spcduino.calculateChecksum / prepareBufferForSending) *)

Definition calculateChecksum (buffer : list Z) : Z :=
  fold_left (fun previousValue currentValue =>
               Z.land (previousValue + currentValue) 0xFF) buffer 0.

(** [Buffer.from(array)]: every element stored as a byte. *)
Definition Buffer_from (xs : list Z) : list Z := map ToUint8 xs.

Definition prepareBufferForSending (buffer : list Z) : list Z :=
  Buffer_from (buffer ++ [calculateChecksum buffer]).

(* ------------------------------------------------------------------ *)
(** ** SpcWriter.findBootLoaderAddress *)

Definition LOWEST_BOOTABLE_ADDRESS : Z := 0x100.
Definition HIGHEST_BOOTABLE_ADDRESS : Z := 0xFFBF.

(** The inner loop [for (j = i - size; j < i; j++) if (d[i] !== d[j]) break;]
    returning the final [j]; [fuel] bounds the [i - j] iterations left. *)
Fixpoint scan_run (fuel : nat) (d : image) (i j : Z) : Z :=
  match fuel with
  | O => j
  | S f =>
      if j <? i then
        if negb (d i =? d j) then j else scan_run f d i (j + 1)
      else j
  end.

(** The outer loop, [i] going down from [HIGHEST_BOOTABLE_ADDRESS]. *)
Fixpoint find_loop (fuel : nat) (d : image) (bootLoaderSize i : Z) : Z :=
  match fuel with
  | O => -1
  | S f =>
      if LOWEST_BOOTABLE_ADDRESS + bootLoaderSize <? i then
        if d i =? d (i - bootLoaderSize) then
          let j := scan_run (Z.to_nat bootLoaderSize) d i (i - bootLoaderSize) in
          if j =? i then i - bootLoaderSize
          else find_loop f d bootLoaderSize (i - 1)
        else find_loop f d bootLoaderSize (i - 1)
      else -1
  end.

Definition findBootLoaderAddress (d : image) (bootLoaderSize : Z) : Z :=
  find_loop (Z.to_nat HIGHEST_BOOTABLE_ADDRESS) d bootLoaderSize
            HIGHEST_BOOTABLE_ADDRESS.

(* ------------------------------------------------------------------ *)
(** ** SpcWriter.play: the finalized program image *)

(** [stackPointer] is [regSP - 6] (set in [SpcWriter.load]). *)
Definition finalize_image (spc : ISpc) (bootLoader : list Z)
    (bootLoaderOffset stackPointer : Z) : image :=
  let programData0 := fun a => programData spc a in
  let programData1 := blit bootLoader programData0 bootLoaderOffset in
  let programData2 := store programData1 0xFF stackPointer in
  let sp := 0x100 + stackPointer in
  let programData3 := store programData2 (sp + 1) (regA spc) in
  let programData4 := store programData3 (sp + 2) (regX spc) in
  let programData5 := store programData4 (sp + 3) (regY spc) in
  let programData6 := store programData5 (sp + 4) (regPSW spc) in
  let programData7 := store programData6 (sp + 5) (Z.land (regPC spc) 0xFF) in
  store programData7 (sp + 6) (Z.shiftr (regPC spc) 8).

(* ------------------------------------------------------------------ *)
(** ** Buffers on a shared store

    [Buffer]s are objects: the module-level templates [BootLoader] and
    [DspLoader] are shared by every [SpcWriter].  The store maps a location
    to the bytes of the buffer allocated there. *)

Abbreviation loc := nat (only parsing).
Abbreviation heap := (list (list Z)) (only parsing).

Definition buf (h : heap) (l : loc) : list Z := default [] (h !! l).

(** [Buffer.alloc(n)]: a fresh zero-filled buffer at the next location. *)
Definition alloc (h : heap) (n : nat) : loc * heap :=
  (length h, h ++ [replicate n 0]).

(** [buffer[i] = v] on the buffer at [l]. *)
Definition buf_store (h : heap) (l : loc) (i : nat) (v : Z) : heap :=
  match h !! l with
  | Some b => <[l := <[i := ToUint8 v]> b]> h
  | None => h
  end.

(** [src.copy(target)]: copies [min(src.length, target.length)] bytes
    from the start of [src] to the start of [target]. *)
Definition buf_copy (h : heap) (src dst : loc) : heap :=
  match h !! dst with
  | Some t =>
      let s := buf h src in
      let n := Nat.min (length s) (length t) in
      <[dst := take n s ++ drop n t]> h
  | None => h
  end.

(** The templates, as [Buffer.from] builds them ([null] becomes 0). *)
Definition DspLoader_bytes : list Z :=
  [0xC4; 0xF2;  0x64; 0xF4;  0xD0; 0xFC;  0xFA; 0xF5; 0xF3;  0xC4; 0xF4;
   0xBC;  0x10; 0xF2;
   0x8F; 0; 0xFC;  0x8F; 0; 0xFB;  0x8F; 0; 0xFA;
   0xCD; 0;  0xBD;
   0x2F; 0xAB].

Definition BootLoader_bytes : list Z :=
  [0x8F; 0; 0x00;  0x8F; 0; 0x01;  0x8F; 0xB0; 0xF1;  0xCD; 0x53;  0xD8; 0xF4;
   0xE4; 0xF4;  0x68; 0;  0xD0; 0xFA;
   0xE4; 0xF7;  0x68; 0;  0xD0; 0xFA;
   0x8F; 0; 0xF1;
   0x8F; 0x6C; 0xF2;  0x8F; 0; 0xF3;  0x8F; 0x4C; 0xF2;  0x8F; 0; 0xF3;
   0x8F; 0; 0xF2;
   0xAE;  0xCE;  0xEE;  0x7F].

(** Where the module-level constants live. *)
Definition BootLoader : loc := 0%nat.
Definition DspLoader : loc := 1%nat.

(** The store right after the module [programs] is loaded. *)
Definition heap0 : heap := [BootLoader_bytes; DspLoader_bytes].

Record SpcWriter := mkWriter {
  spc : ISpc;
  bootLoader : option loc;
  bootLoaderOffset : Z;
  stackPointer : Z;
  dspLoader : option loc
}.

Definition set_spc (w : SpcWriter) (s : ISpc) (sp : Z) : SpcWriter :=
  mkWriter s (bootLoader w) (bootLoaderOffset w) sp (dspLoader w).

Definition throw_msg := string.

(** [SpcWriter.writeBootLoader] *)
Definition writeBootLoader (w : SpcWriter) (h : heap)
    : throw_msg + (SpcWriter * heap) :=
  let pd := programData (spc w) in
  let off := findBootLoaderAddress pd (Z.of_nat (length (buf h BootLoader))) in
  if off =? -1 then inl "Unable to find space to place boot loader"
  else
    let '(l, h1) := alloc h (length (buf h BootLoader)) in
    let h2 := buf_copy h1 BootLoader l in
    let h3 := buf_store h2 l 0x01 (pd 0x00) in
    let h4 := buf_store h3 l 0x04 (pd 0x01) in
    let h5 := buf_store h4 l 0x10 (pd 0xF4) in
    let h6 := buf_store h5 l 0x16 (pd 0xF7) in
    let h7 := buf_store h6 l 0x1A (Z.land (pd 0xF1) 0xCF) in
    let h8 := buf_store h7 l 0x20 (dspRegisters (spc w) 0x6C) in
    let h9 := buf_store h8 l 0x26 (dspRegisters (spc w) 0x47) in
    let h10 := buf_store h9 l 0x29 (pd 0xF2) in
    inr (mkWriter (spc w) (Some l) off (stackPointer w) (dspLoader w), h10).

(** [SpcWriter.writeDspLoader] *)
Definition writeDspLoader (w : SpcWriter) (h : heap) : SpcWriter * heap :=
  let pd := programData (spc w) in
  let '(l, h1) := alloc h (length (buf h DspLoader)) in
  let h2 := buf_copy h1 DspLoader l in
  let h3 := buf_store h2 l 0x0F (pd 0xFC) in
  let h4 := buf_store h3 l 0x12 (pd 0xFB) in
  let h5 := buf_store h4 l 0x15 (pd 0xFA) in
  let h6 := buf_store h5 l 0x18 (stackPointer w) in
  (mkWriter (spc w) (bootLoader w) (bootLoaderOffset w) (stackPointer w) (Some l), h6).

(** [SpcWriter.load], after [SpcReader] has parsed the file into [s]. *)
Definition load (w : SpcWriter) (s : ISpc) (h : heap)
    : throw_msg + (SpcWriter * heap) :=
  let w1 := set_spc w s (regSP s - 6) in
  match writeBootLoader w1 h with
  | inl e => inl e
  | inr (w2, h2) => inr (writeDspLoader w2 h2)
  end.

(** [SpcWriter.play]: the finalized image it builds. *)
Definition play_image (w : SpcWriter) (h : heap) : image :=
  finalize_image (spc w) (buf h (default 0%nat (bootLoader w)))
                 (bootLoaderOffset w) (stackPointer w).

(* ------------------------------------------------------------------ *)
(** ** Spcduino: the serial port and the promise outcomes *)

Definition CMD_RESET : Z := 1.
Definition CMD_LOAD_DSP : Z := 2.
Definition CMD_START_SPC : Z := 3.
Definition CMD_SPC_CHUNK : Z := 4.
Definition CMD_PLAY : Z := 5.

Definition RSP_OKAY : Z := 1.
Definition RSP_FAIL : Z := 2.
Definition RSP_BAD_CHECKSUM : Z := 3.
Definition RSP_READY : Z := 86.

Definition MAX_SEND_SIZE : nat := 64.
Definition ZERO_PAGE_SIZE : Z := 0xEF - 2.
Definition SPC_CHUNK_SIZE : Z := 0x80.

(** The JavaScript values a promise of the driver is rejected with. *)
Inductive payload :=
  | PBuffer (data : list Z)                  (* a [Buffer] from a 'data' event *)
  | PStr (s : string)                        (* a bare string *)
  | PError (message : string)                (* [new Error(message)] *)
  | PErrorWith (message : string) (cause : payload).
                                  (* [new Error(`${message}${cause}`)] *)

(** [exc === n] for a number [n]: only a number is strictly equal to one,
    and no rejection value of the driver is a number. *)
Definition strict_eq_num (exc : payload) (n : Z) : bool :=
  match exc with
  | PBuffer _ | PStr _ | PError _ | PErrorWith _ _ => false
  end.

(** What the port delivers to the listeners: a data chunk or an error. *)
Inductive port_event :=
  | EvData (data : list Z)
  | EvError (message : string).

(** What the driver does on the wire: [port.write(bytes)] and [port.drain]. *)
Inductive wire_event :=
  | WWrite (bytes : list Z)
  | WDrain.

Record port := mkPort {
  isOpen : bool;
  wire : list wire_event;          (* what was done on the port, in order *)
  incoming : list port_event;      (* events the device will deliver *)
  drains : list bool               (* outcome of each drain: true = ok *)
}.

Definition port_write (st : port) (b : list Z) : port :=
  mkPort (isOpen st) (wire st ++ [WWrite b]) (incoming st) (drains st).

(** [port.drain(cb)]: records the drain and returns whether it failed;
    once the scripted outcomes are used up, drains succeed. *)
Definition port_drain (st : port) : bool * port :=
  match drains st with
  | [] => (true, mkPort (isOpen st) (wire st ++ [WDrain]) (incoming st) [])
  | ok :: r => (ok, mkPort (isOpen st) (wire st ++ [WDrain]) (incoming st) r)
  end.

(** The state of a promise once the driver's code has run. *)
Inductive outcome (A : Type) :=
  | Resolved (a : A)
  | Rejected (e : payload)
  | Pending.
Arguments Resolved {A} a.
Arguments Rejected {A} e.
Arguments Pending {A}.

(** [async] code on the port: runs to a settled (or pending) promise. *)
Definition M (A : Type) := port -> outcome A * port.

Definition ret {A} (a : A) : M A := fun st => (Resolved a, st).
Definition throw {A} (e : payload) : M A := fun st => (Rejected e, st).
Definition bind {A B} (m : M A) (k : A -> M B) : M B := fun st =>
  match m st with
  | (Resolved a, st') => k a st'
  | (Rejected e, st') => (Rejected e, st')
  | (Pending, st') => (Pending, st')
  end.
(** [try { m } catch (exc) { h(exc) }] *)
Definition catch {A} (m : M A) (h : payload -> M A) : M A := fun st =>
  match m st with
  | (Rejected e, st') => h e st'
  | r => r
  end.

Notation "'let*' x ':=' m 'in' k" := (bind m (fun x => k))
  (at level 200, x name, m at level 100, k at level 200).

(** A promise settles once: later [resolve]/[reject] calls are ignored. *)
Definition settle {A} (first next : outcome A) : outcome A :=
  match first with
  | Pending => next
  | _ => first
  end.

(** [Spcduino.writeBuffer(buffer, offset)]; [fuel] bounds the recursion,
    which makes at least one byte of progress per call. *)
Fixpoint writeBuffer_go (fuel : nat) (buffer : list Z) (offset : nat)
    : M unit := fun st =>
  match fuel with
  | O => (Pending, st)
  | S f =>
      let chunkSize := if Nat.ltb MAX_SEND_SIZE (length buffer - offset)
                       then MAX_SEND_SIZE else (length buffer - offset)%nat in
      let sendBuffer := take chunkSize (drop offset buffer) in
      let offset' := (offset + chunkSize)%nat in
      let st1 := port_write st sendBuffer in
      let '(ok, st2) := port_drain st1 in
      if negb ok then (Rejected (PStr "drain error"), st2)
      else if Nat.ltb offset' (length buffer)
      then writeBuffer_go f buffer offset' st2
      else (Resolved tt, st2)
  end.

Definition writeBuffer (buffer : list Z) (offset : nat) : M unit :=
  writeBuffer_go (S (length buffer)) buffer offset.

(** [Spcduino.writeAndWait(buffer)] *)
Definition writeAndWait (buffer : list Z) : M payload := fun st =>
  let first : outcome payload :=
    if negb (isOpen st) then Rejected (PStr "Port has not been opened")
    else Pending in
  match writeBuffer buffer 0 st with
  | (Rejected err, st1) => (settle first (Rejected err), st1)
  | (_, st1) =>
      match incoming st1 with
      | [] => (first, st1)
      | EvData data :: rest =>
          let st2 := mkPort (isOpen st1) (wire st1) rest (drains st1) in
          let r := if bool_decide (data !! 0%nat = Some RSP_OKAY)
                   then Resolved (PBuffer data) else Rejected (PBuffer data) in
          (settle first r, st2)
      | EvError e :: rest =>
          let st2 := mkPort (isOpen st1) (wire st1) rest (drains st1) in
          (settle first (Rejected (PStr e)), st2)
      end
  end.

(** [Spcduino.reset] *)
Definition reset : M unit :=
  catch (let* _ := writeAndWait (Buffer_from [CMD_RESET]) in ret tt)
        (fun _ => throw (PError "Error resetting SPC")).

(** [Spcduino.initDsp(dspLoader, dspRegisters)] *)
Definition initDsp (dspLoader dspRegisters : list Z) : M unit :=
  catch
    (let buffer := prepareBufferForSending dspLoader in
     let* _ := writeAndWait (Buffer_from (CMD_LOAD_DSP :: buffer)) in
     let buffer := prepareBufferForSending dspRegisters in
     let* _ := writeAndWait buffer in
     ret tt)
    (fun exc =>
       let errorMsg := if strict_eq_num exc RSP_BAD_CHECKSUM
                       then "Failed checksum" else "Unknown error" in
       throw (PError ("Error initializing DSP: " +:+ errorMsg))).

(** [Spcduino.writeSpcChunk(addr, buffer)] *)
Definition writeSpcChunk (addr : Z) (buffer : list Z) : M unit :=
  let cmdBuffer := prepareBufferForSending
      (Buffer_from [Z.land addr 0xFF; Z.shiftr addr 8; Z.of_nat (length buffer)]) in
  catch
    (let* _ := writeAndWait (Buffer_from (CMD_SPC_CHUNK :: cmdBuffer)) in
     let* _ := writeAndWait (prepareBufferForSending buffer) in
     ret tt)
    (fun exc => throw (PErrorWith "Error writing SPC data chunk: " exc)).

(** [Buffer.alloc(n)] followed by [spcProgram.copy(buffer, 0, start, start + n)]:
    bytes past the end of the 64KB program stay 0. *)
Definition copy_out (spcProgram : image) (start : Z) (n : nat) : list Z :=
  map (fun i => let a := start + Z.of_nat i in
                if a <? IMAGE_SIZE then spcProgram a else 0) (seq 0 n).

(** The [while (currentAddress < 0xFFFF)] loop of [Spcduino.loadSPC]. *)
Fixpoint spc_body_loop (fuel : nat) (spcProgram : image) (currentAddress : Z)
    : M unit :=
  match fuel with
  | O => ret tt
  | S f =>
      if currentAddress <? 0xFFFF then
        let buffer := copy_out spcProgram currentAddress (Z.to_nat SPC_CHUNK_SIZE) in
        let* _ := writeSpcChunk currentAddress buffer in
        spc_body_loop f spcProgram (currentAddress + SPC_CHUNK_SIZE)
      else ret tt
  end.

(** [Spcduino.loadSPC(spcProgram)] *)
Definition loadSPC (spcProgram : image) : M unit :=
  catch
    (let buffer := copy_out spcProgram 2 (Z.to_nat ZERO_PAGE_SIZE) in
     let buffer := prepareBufferForSending buffer in
     let* _ := writeAndWait (Buffer_from (CMD_START_SPC :: buffer)) in
     spc_body_loop (Z.to_nat IMAGE_SIZE) spcProgram 0x100)
    (fun exc =>
       let errorMsg := if strict_eq_num exc RSP_BAD_CHECKSUM
                       then "Failed checksum" else "Unknown error" in
       throw (PError ("Error loading SPC data: " +:+ errorMsg))).

(** [Spcduino.play(bootLoaderAddress, portValues)] *)
Definition play (bootLoaderAddress : Z) (portValues : list Z) : M unit :=
  let cmdBuffer := prepareBufferForSending
      (Buffer_from ([Z.land bootLoaderAddress 0xFF; Z.shiftr bootLoaderAddress 8]
                    ++ portValues)) in
  let* _ := writeAndWait (Buffer_from (CMD_PLAY :: cmdBuffer)) in
  ret tt.

(** The chunks the body loop hands to [writeSpcChunk], in order. *)
Fixpoint body_schedule (fuel : nat) (spcProgram : image) (currentAddress : Z)
    : list (Z * list Z) :=
  match fuel with
  | O => []
  | S f =>
      if currentAddress <? 0xFFFF then
        (currentAddress, copy_out spcProgram currentAddress (Z.to_nat SPC_CHUNK_SIZE))
          :: body_schedule f spcProgram (currentAddress + SPC_CHUNK_SIZE)
      else []
  end.

Fixpoint run_chunks (cs : list (Z * list Z)) : M unit :=
  match cs with
  | [] => ret tt
  | (a, b) :: r => let* _ := writeSpcChunk a b in run_chunks r
  end.

Definition loadSPC_chunks (spcProgram : image) : list (Z * list Z) :=
  body_schedule (Z.to_nat IMAGE_SIZE) spcProgram 0x100.

(** Byte addresses [start, start + n). *)
Definition Zrange (start : Z) (n : nat) : list Z :=
  map (fun i => start + Z.of_nat i) (seq 0 n).

Fixpoint Zsum (b : list Z) : Z :=
  match b with
  | [] => 0
  | x :: r => x + Zsum r
  end.

(* ================================================================== *)
(** * Lemmas *)

Lemma land_255_mod (x : Z) : Z.land x 0xFF = x mod 256.
Proof. change 0xFF with (Z.ones 8). rewrite Z.land_ones; [reflexivity | lia]. Qed.

Lemma checksum_fold (b : list Z) (a : Z) :
  fold_left (fun p c => Z.land (p + c) 0xFF) b (a mod 256) = (a + Zsum b) mod 256.
Proof.
  revert a; induction b as [|x r IH]; intros a; simpl.
  - now rewrite Z.add_0_r.
  - rewrite land_255_mod, Z.add_mod_idemp_l by lia.
    rewrite IH. f_equal. lia.
Qed.

Lemma calculateChecksum_sum (b : list Z) : calculateChecksum b = Zsum b mod 256.
Proof. unfold calculateChecksum. apply (checksum_fold b 0). Qed.

Lemma Zsum_app (a b : list Z) : Zsum (a ++ b) = Zsum a + Zsum b.
Proof. induction a; simpl; lia. Qed.

Lemma ToUint8_small (v : Z) : 0 <= v < 256 -> ToUint8 v = v.
Proof. intros. unfold ToUint8. now apply Z.mod_small. Qed.

Lemma store_same (m : image) (a v : Z) :
  0 <= a < IMAGE_SIZE -> store m a v a = ToUint8 v.
Proof.
  intros H. unfold store.
  rewrite Z.eqb_refl. replace (0 <=? a) with true by lia.
  replace (a <? IMAGE_SIZE) with true by lia. reflexivity.
Qed.

Lemma store_other (m : image) (a v x : Z) : x <> a -> store m a v x = m x.
Proof.
  intros H. unfold store.
  replace (x =? a) with false by lia. now rewrite andb_false_r.
Qed.

(** The scan of [findBootLoaderAddress]: reaching [j = i] means that every
    byte of [[j, i)] equals [d[i]]. *)
Lemma scan_run_all (d : image) (i : Z) (n : nat) (j : Z) :
  scan_run n d i j = i -> forall k, j <= k < i -> d k = d i.
Proof.
  revert j; induction n as [|f IH]; intros j Hs k Hk; simpl in Hs.
  - lia.
  - destruct (j <? i) eqn:Hji; [|lia].
    destruct (d i =? d j) eqn:Heq; simpl in Hs; [|lia].
    destruct (Z.eq_dec k j) as [->|Hne]; [lia|].
    apply (IH (j + 1)); [exact Hs | lia].
Qed.

Lemma find_loop_spec (d : image) (len : Z) (fuel : nat) (i : Z) :
  0 <= len ->
  let r := find_loop fuel d len i in
  r = -1 \/
  (LOWEST_BOOTABLE_ADDRESS < r /\ r + len <= i /\
   forall k, r <= k <= r + len -> d k = d (r + len)).
Proof.
  intros Hlen. revert i; induction fuel as [|f IH]; intros i; simpl; [now left|].
  destruct (LOWEST_BOOTABLE_ADDRESS + len <? i) eqn:Hlo; [|now left].
  destruct (d i =? d (i - len)) eqn:Hd.
  - destruct (scan_run (Z.to_nat len) d i (i - len) =? i) eqn:Hj.
    + right. apply Z.eqb_eq in Hj. apply Z.ltb_lt in Hlo.
      split; [lia|]. split; [lia|].
      intros k Hk. replace (i - len + len) with i by lia.
      destruct (Z.eq_dec k i) as [->|Hne]; [reflexivity|].
      apply (scan_run_all d i _ _ Hj). lia.
    + destruct (IH (i - 1)) as [H|(H1 & H2 & H3)]; [now left|].
      right. repeat split; auto; lia.
  - destruct (IH (i - 1)) as [H|(H1 & H2 & H3)]; [now left|].
    right. repeat split; auto; lia.
Qed.

(** *** The store of buffers *)

Lemma buf_store_ne (h : heap) (l l' : loc) (i : nat) (v : Z) :
  l <> l' -> buf_store h l i v !! l' = h !! l'.
Proof.
  intros Hne. unfold buf_store.
  destruct (h !! l); [|reflexivity]. now rewrite list_lookup_insert_ne.
Qed.

Lemma buf_store_eq (h : heap) (l : loc) (i : nat) (v : Z) (b : list Z) :
  h !! l = Some b -> buf_store h l i v !! l = Some (<[i := ToUint8 v]> b).
Proof.
  intros Hb. unfold buf_store. rewrite Hb.
  apply list_lookup_insert_eq. eapply lookup_lt_Some; eauto.
Qed.

Lemma buf_copy_ne (h : heap) (src dst l' : loc) :
  dst <> l' -> buf_copy h src dst !! l' = h !! l'.
Proof.
  intros Hne. unfold buf_copy.
  destruct (h !! dst); [|reflexivity]. now rewrite list_lookup_insert_ne.
Qed.

Lemma buf_copy_eq (h : heap) (src dst : loc) (t : list Z) :
  h !! dst = Some t ->
  buf_copy h src dst !! dst =
  Some (take (Nat.min (length (buf h src)) (length t)) (buf h src)
        ++ drop (Nat.min (length (buf h src)) (length t)) t).
Proof.
  intros Ht. unfold buf_copy. rewrite Ht.
  apply list_lookup_insert_eq. eapply lookup_lt_Some; eauto.
Qed.

Lemma alloc_old (h : heap) (n : nat) (l : loc) :
  (l < length h)%nat -> (alloc h n).2 !! l = h !! l.
Proof. intros Hl. simpl. now apply lookup_app_l. Qed.

Lemma alloc_new (h : heap) (n : nat) :
  (alloc h n).2 !! (alloc h n).1 = Some (replicate n 0).
Proof. simpl. rewrite lookup_app_r by lia. now rewrite Nat.sub_diag. Qed.

Lemma buf_store_length (h : heap) (l : loc) (i : nat) (v : Z) :
  length (buf_store h l i v) = length h.
Proof.
  unfold buf_store. destruct (h !! l); [|reflexivity]. apply length_insert.
Qed.

Lemma buf_copy_length (h : heap) (src dst : loc) :
  length (buf_copy h src dst) = length h.
Proof.
  unfold buf_copy. destruct (h !! dst); [|reflexivity]. apply length_insert.
Qed.

(** [writeBootLoader] allocates one buffer and touches no other. *)
Lemma writeBootLoader_frame (w : SpcWriter) (h : heap) (w' : SpcWriter) (h' : heap) :
  writeBootLoader w h = inr (w', h') ->
  bootLoader w' = Some (length h) /\ spc w' = spc w /\
  stackPointer w' = stackPointer w /\ dspLoader w' = dspLoader w /\
  length h' = S (length h) /\
  forall l, (l < length h)%nat -> h' !! l = h !! l.
Proof.
  unfold writeBootLoader.
  destruct (_ =? -1); [discriminate|].
  simpl. intros [= <- <-]. simpl.
  split; [reflexivity|]. do 3 (split; [reflexivity|]).
  split.
  - rewrite !buf_store_length, buf_copy_length, length_app. simpl. lia.
  - intros l Hl.
    rewrite !buf_store_ne by lia. rewrite buf_copy_ne by lia.
    apply lookup_app_l. exact Hl.
Qed.

Lemma writeDspLoader_frame (w : SpcWriter) (h : heap) :
  let '(w', h') := writeDspLoader w h in
  dspLoader w' = Some (length h) /\ spc w' = spc w /\
  stackPointer w' = stackPointer w /\ bootLoader w' = bootLoader w /\
  bootLoaderOffset w' = bootLoaderOffset w /\
  forall l, (l < length h)%nat -> h' !! l = h !! l.
Proof.
  unfold writeDspLoader. simpl.
  do 5 (split; [reflexivity|]).
  intros l Hl.
  rewrite !buf_store_ne by lia. rewrite buf_copy_ne by lia.
  apply lookup_app_l. exact Hl.
Qed.

Lemma load_frame (w0 : SpcWriter) (s : ISpc) (h : heap) (w : SpcWriter) (h' : heap) :
  load w0 s h = inr (w, h') ->
  bootLoader w = Some (length h) /\ dspLoader w = Some (S (length h)) /\
  spc w = s /\ stackPointer w = regSP s - 6 /\
  forall l, (l < length h)%nat -> h' !! l = h !! l.
Proof.
  unfold load.
  destruct (writeBootLoader _ h) as [e|[w2 h2]] eqn:Hb; [discriminate|].
  pose proof (writeDspLoader_frame w2 h2) as Hw.
  destruct (writeDspLoader w2 h2) as [w3 h3].
  intros [= <- <-].
  apply writeBootLoader_frame in Hb as (Hbl & Hs & Hsp & _ & Hlen & Hfr).
  destruct Hw as (Hdl & Hs' & Hsp' & Hbl' & _ & Hfr').
  rewrite Hlen in Hdl. simpl in Hs, Hsp.
  split; [congruence|]. split; [congruence|].
  split; [congruence|]. split; [congruence|].
  intros l Hl. rewrite Hfr' by lia. now apply Hfr.
Qed.

(** *** Address ranges and the chunk schedule of [loadSPC] *)

Lemma map_seq_shift (b a c : nat) (s t : Z) :
  s + Z.of_nat a = t + Z.of_nat c ->
  map (fun i => s + Z.of_nat i) (seq a b) = map (fun i => t + Z.of_nat i) (seq c b).
Proof.
  revert a c; induction b as [|b IH]; intros a c H; simpl; [reflexivity|].
  f_equal; [exact H|]. apply IH. lia.
Qed.

Lemma Zrange_app (s : Z) (a b : nat) :
  Zrange s (a + b) = Zrange s a ++ Zrange (s + Z.of_nat a) b.
Proof.
  unfold Zrange. rewrite seq_app, map_app. f_equal.
  apply map_seq_shift. lia.
Qed.

Lemma Zrange_chunks (s : Z) (n st : nat) :
  flat_map (fun k => Zrange (s + 128 * Z.of_nat k) 128) (seq st n) =
  Zrange (s + 128 * Z.of_nat st) (128 * n).
Proof.
  revert st; induction n as [|n IH]; intros st.
  - rewrite Nat.mul_0_r. reflexivity.
  - simpl seq. cbn [flat_map]. rewrite IH.
    replace (128 * S n)%nat with (128 + 128 * n)%nat by lia.
    rewrite Zrange_app. f_equal. f_equal. lia.
Qed.

Lemma Zrange_NoDup (s : Z) (n : nat) : NoDup (Zrange s n).
Proof.
  unfold Zrange. apply NoDup_ListNoDup.
  apply NoDup_map_NoDup_ForallPairs; [|apply seq_NoDup].
  intros x y _ _ H. lia.
Qed.

Definition chunk_at (img : image) (k : nat) : Z * list Z :=
  (0x100 + 128 * Z.of_nat k, copy_out img (0x100 + 128 * Z.of_nat k) 128).

Lemma body_schedule_shape (img : image) (m fuel : nat) :
  (m <= 510)%nat -> (m < fuel)%nat ->
  body_schedule fuel img (0x100 + 128 * Z.of_nat (510 - m)) =
  map (chunk_at img) (seq (510 - m) m).
Proof.
  revert fuel; induction m as [|m IH]; intros fuel Hm Hf.
  - destruct fuel as [|f]; [lia|]. reflexivity.
  - destruct fuel as [|f]; [lia|]. simpl body_schedule.
    replace (510 - S m)%nat with (509 - m)%nat by lia.
    replace (0x100 + 128 * Z.of_nat (509 - m) <? 0xFFFF) with true
      by (symmetry; apply Z.ltb_lt; lia).
    simpl seq.
    cbn [map]. f_equal.
    replace (0x100 + 128 * Z.of_nat (509 - m) + SPC_CHUNK_SIZE)
      with (0x100 + 128 * Z.of_nat (510 - m)) by (unfold SPC_CHUNK_SIZE; lia).
    replace (S (509 - m)) with (510 - m)%nat by lia.
    apply IH; lia.
Qed.

Lemma loadSPC_chunks_shape (img : image) :
  loadSPC_chunks img = map (chunk_at img) (seq 0 510).
Proof.
  unfold loadSPC_chunks.
  apply (body_schedule_shape img 510 (Z.to_nat IMAGE_SIZE));
    [lia | apply Nat.ltb_lt; vm_compute; reflexivity].
Qed.

Lemma copy_out_in_range (img : image) (a : Z) (n : nat) :
  0 <= a -> a + Z.of_nat n <= IMAGE_SIZE ->
  copy_out img a n = map img (Zrange a n).
Proof.
  intros H0 H1. unfold copy_out, Zrange. rewrite map_map.
  apply map_ext_in. intros i Hi. apply in_seq in Hi.
  replace (a + Z.of_nat i <? IMAGE_SIZE) with true
    by (symmetry; apply Z.ltb_lt; lia).
  reflexivity.
Qed.

Lemma spc_body_loop_run_chunks (fuel : nat) (img : image) (a : Z) (st : port) :
  spc_body_loop fuel img a st = run_chunks (body_schedule fuel img a) st.
Proof.
  revert a st; induction fuel as [|f IH]; intros a st; simpl; [reflexivity|].
  destruct (a <? 0xFFFF); [|reflexivity].
  cbn [run_chunks]. unfold bind.
  destruct (writeSpcChunk _ _ st) as [o st'].
  destruct o; [apply IH | reflexivity | reflexivity].
Qed.

Lemma chunk_at_length (img : image) (k : nat) :
  length (chunk_at img k).2 = 128%nat.
Proof. unfold chunk_at, copy_out. cbn [fst snd]. now rewrite length_map, length_seq. Qed.

(** *** [writeBuffer] and [writeAndWait] *)

Definition wire_of (slices : list (list Z)) : list wire_event :=
  flat_map (fun s => [WWrite s; WDrain]) slices.

Lemma port_drain_spec (st : port) (ok : bool) (st' : port) :
  port_drain st = (ok, st') ->
  wire st' = wire st ++ [WDrain] /\ isOpen st' = isOpen st /\
  incoming st' = incoming st.
Proof.
  unfold port_drain. destruct (drains st); intros [= <- <-]; auto.
Qed.

Lemma writeBuffer_go_resolved (fuel : nat) (buffer : list Z) (offset : nat)
    (st st' : port) :
  writeBuffer_go fuel buffer offset st = (Resolved tt, st') ->
  exists slices,
    wire st' = wire st ++ wire_of slices /\
    Forall (fun s => (length s <= MAX_SEND_SIZE)%nat) slices /\
    concat slices = drop offset buffer /\
    isOpen st' = isOpen st /\ incoming st' = incoming st.
Proof.
  revert offset st; induction fuel as [|f IH]; intros offset st H; simpl in H;
    [discriminate|].
  set (chunk := if Nat.ltb MAX_SEND_SIZE (length buffer - offset)
                then MAX_SEND_SIZE else (length buffer - offset)%nat) in H.
  assert (Hc : (chunk <= MAX_SEND_SIZE)%nat /\
               ((length buffer - offset <= MAX_SEND_SIZE)%nat ->
                chunk = (length buffer - offset)%nat)).
  { unfold chunk. destruct (Nat.ltb_spec MAX_SEND_SIZE (length buffer - offset));
      split; intros; lia. }
  set (sb := take chunk (drop offset buffer)) in H.
  destruct (port_drain (port_write st sb)) as [ok st2] eqn:Hd.
  apply port_drain_spec in Hd as (Hw2 & Ho2 & Hi2). simpl in Hw2, Ho2, Hi2.
  destruct ok; simpl in H; [|discriminate].
  assert (Hsb : (length sb <= MAX_SEND_SIZE)%nat).
  { unfold sb. rewrite length_take. lia. }
  destruct (Nat.ltb_spec (offset + chunk) (length buffer)) as [Hlt|Hge].
  - apply IH in H as (slices & Hw & Hf & Hc' & Ho & Hi).
    exists (sb :: slices). split; [|split; [|split; [|split]]].
    + rewrite Hw, Hw2. unfold wire_of. cbn [flat_map].
      now rewrite <- !app_assoc.
    + now constructor.
    + simpl. rewrite Hc'. unfold sb.
      rewrite <- drop_drop. apply take_drop.
    + congruence.
    + congruence.
  - injection H as <-.
    exists [sb]. split; [|split; [|split; [|split]]].
    + rewrite Hw2. unfold wire_of. cbn [flat_map].
      now rewrite <- !app_assoc.
    + now constructor.
    + simpl. rewrite app_nil_r. unfold sb. apply take_ge.
      rewrite length_drop. destruct Hc as [_ Hc].
      destruct (Nat.le_gt_cases (length buffer - offset) MAX_SEND_SIZE) as [Hle|Hgt].
      * rewrite (Hc Hle). lia.
      * unfold chunk in *. destruct (Nat.ltb_spec MAX_SEND_SIZE (length buffer - offset)); lia.
    + congruence.
    + congruence.
Qed.

Lemma writeBuffer_go_total (fuel : nat) (buffer : list Z) (offset : nat) (st : port) :
  drains st = [] -> (length buffer - offset < fuel)%nat ->
  exists st', writeBuffer_go fuel buffer offset st = (Resolved tt, st') /\ drains st' = [].
Proof.
  revert offset st; induction fuel as [|f IH]; intros offset st Hd Hf; [lia|].
  simpl. unfold port_drain. simpl. rewrite Hd. simpl.
  set (chunk := if Nat.ltb MAX_SEND_SIZE (length buffer - offset)
                then MAX_SEND_SIZE else (length buffer - offset)%nat).
  destruct (Nat.ltb_spec (offset + chunk) (length buffer)) as [Hlt|Hge].
  - apply IH; [reflexivity|].
    unfold chunk in *. destruct (Nat.ltb_spec MAX_SEND_SIZE (length buffer - offset));
      unfold MAX_SEND_SIZE in *; lia.
  - eexists. split; reflexivity.
Qed.

Lemma writeAndWait_closed (buffer : list Z) (st : port) :
  isOpen st = false ->
  fst (writeAndWait buffer st) = Rejected (PStr "Port has not been opened").
Proof.
  intros Hc. unfold writeAndWait. rewrite Hc. simpl.
  destruct (writeBuffer buffer 0 st) as [o st1].
  destruct o; [| reflexivity |];
    destruct (incoming st1) as [|[]]; reflexivity.
Qed.

(** On an open port whose drains succeed, [writeAndWait] sends the whole
    buffer in slices and settles on the next data event. *)
Lemma writeAndWait_data (buffer : list Z) (st : port) (d : list Z)
    (rest : list port_event) :
  isOpen st = true -> drains st = [] -> incoming st = EvData d :: rest ->
  exists slices,
    writeAndWait buffer st =
      (if bool_decide (d !! 0%nat = Some RSP_OKAY)
       then Resolved (PBuffer d) else Rejected (PBuffer d),
       mkPort true (wire st ++ wire_of slices) rest []) /\
    concat slices = buffer.
Proof.
  intros Ho Hd Hi.
  destruct (writeBuffer_go_total (S (length buffer)) buffer 0 st Hd) as (st1 & Hr & Hd1);
    [lia|].
  pose proof (writeBuffer_go_resolved _ _ _ _ _ Hr) as (slices & Hw & _ & Hc & Ho1 & Hi1).
  exists slices. split; [|exact Hc].
  unfold writeAndWait, writeBuffer. rewrite Ho, Hr. simpl.
  rewrite Hi1, Hi. simpl. rewrite Hw, Ho1, Ho, Hd1.
  destruct (bool_decide _); reflexivity.
Qed.

(* ================================================================== *)
(** * The claims *)

(** ** C1: SpcWriter.play writes the stack-pointer mirror and the return frame *)

Ltac read_store :=
  repeat (rewrite store_other by lia);
  rewrite store_same by (unfold IMAGE_SIZE; lia).

(** C1. For a snapshot with [SP >= 6] prepared by [load], the image built by
    [play] has [programData[0xFF] = SP - 6] and the bytes [A, X, Y, PSW,
    PC & 0xFF, PC >> 8] at [0x100 + (SP - 6) + 1 .. + 6]; every other address
    keeps the program data with the boot loader copied in. *)
Theorem play_image_stack_frame (w0 : SpcWriter) (s : ISpc) (h0 : heap)
    (w : SpcWriter) (h : heap)
    (Hwf : wf_spc s) (Hsp : 6 <= regSP s) (Hload : load w0 s h0 = inr (w, h)) :
  let sp := regSP s - 6 in
  let img := play_image w h in
  img 0xFF = sp /\
  img (0x100 + sp + 1) = regA s /\ img (0x100 + sp + 2) = regX s /\
  img (0x100 + sp + 3) = regY s /\ img (0x100 + sp + 4) = regPSW s /\
  img (0x100 + sp + 5) = Z.land (regPC s) 0xFF /\
  img (0x100 + sp + 6) = Z.shiftr (regPC s) 8 /\
  forall a, a <> 0xFF -> a < 0x100 + sp + 1 \/ 0x100 + sp + 6 < a ->
    img a = blit (buf h (default 0%nat (bootLoader w))) (programData s)
                 (bootLoaderOffset w) a.
Proof.
  apply load_frame in Hload as (_ & _ & Hs & Hst & _).
  destruct Hwf as (HA & HX & HY & HP & HPC & HS).
  unfold play_image, finalize_image. rewrite Hs, Hst. cbv zeta.
  split; [read_store; apply ToUint8_small; lia|].
  split; [read_store; now apply ToUint8_small|].
  split; [read_store; now apply ToUint8_small|].
  split; [read_store; now apply ToUint8_small|].
  split; [read_store; now apply ToUint8_small|].
  split.
  { read_store. apply ToUint8_small. rewrite land_255_mod.
    apply Z.mod_pos_bound. lia. }
  split.
  { read_store. apply ToUint8_small. rewrite Z.shiftr_div_pow2 by lia.
    change (2 ^ 8) with 256. split; [apply Z.div_pos; lia|].
    apply Z.div_lt_upper_bound; lia. }
  intros a Ha Hr. rewrite !store_other by lia. reflexivity.
Qed.

(** ** C2: the injection site of the boot loader *)

(** C2 (counterexample). With all-zero program data, the search returns
    [0xFF90] for the 47-byte boot loader, and the window [[0xFF90, 0xFFBF)]
    overlaps the echo buffer [[0xFF00, 0xFF00 + 0x800)] of a snapshot with
    [dspRegisters[0x6D] = 0xFF] and [dspRegisters[0x7D] = 1]: the search
    never looks at the echo region. *)
Lemma findBootLoaderAddress_overlaps_echo :
  let len := Z.of_nat (length BootLoader_bytes) in
  let off := findBootLoaderAddress (fun _ => 0) len in
  let echoAddress := 0xFF * 0x100 in
  let echoSize := 1 * 0x800 in
  off = 0xFF90 /\ off <> -1 /\
  off < echoAddress + echoSize /\ echoAddress < off + len.
Proof. vm_compute. repeat split; congruence. Qed.

(** C2 (amended). When the search finds an offset, the window
    [[offset, offset + size)] lies in [[0x101, 0xFFBF)] and every byte of
    [[offset, offset + size]] equals [programData[offset + size]]; the echo
    buffer is not taken into account. *)
Theorem findBootLoaderAddress_window (d : image) (len : Z)
    (Hlen : 0 <= len) (Hfound : findBootLoaderAddress d len <> -1) :
  let off := findBootLoaderAddress d len in
  LOWEST_BOOTABLE_ADDRESS < off /\ off + len <= HIGHEST_BOOTABLE_ADDRESS /\
  forall k, off <= k <= off + len -> d k = d (off + len).
Proof.
  destruct (find_loop_spec d len (Z.to_nat HIGHEST_BOOTABLE_ADDRESS)
              HIGHEST_BOOTABLE_ADDRESS Hlen) as [H|H];
    [contradiction | exact H].
Qed.

Lemma findBootLoaderAddress_window_witness :
  findBootLoaderAddress (fun _ => 0) 47 <> -1 /\
  LOWEST_BOOTABLE_ADDRESS < findBootLoaderAddress (fun _ => 0) 47.
Proof.
  assert (H : findBootLoaderAddress (fun _ => 0) 47 <> -1) by (vm_compute; congruence).
  split; [exact H|].
  apply (findBootLoaderAddress_window (fun _ => 0) 47); [lia | exact H].
Defined.

(** ** C7: the checksum *)

(** C7. [calculateChecksum b] is the sum of [b] modulo 256, and the
    checksum of [b] with its checksum appended is twice it modulo 256. *)
Theorem calculateChecksum_mod_sum (b : list Z) :
  calculateChecksum b = Zsum b mod 256 /\
  calculateChecksum (b ++ [calculateChecksum b]) = (2 * calculateChecksum b) mod 256.
Proof.
  split; [apply calculateChecksum_sum|].
  rewrite !calculateChecksum_sum, Zsum_app. simpl.
  rewrite Z.add_0_r.
  rewrite <- (Z.add_mod_idemp_l (Zsum b) (Zsum b mod 256) 256) by lia.
  f_equal. lia.
Qed.

(** ** C1 witness *)

Definition spc_ex : ISpc := mkSpc (fun _ => 0) (fun _ => 0) 1 2 3 4 0x1234 0xEF.
Definition writer0 (s : ISpc) : SpcWriter := mkWriter s None 0 0 None.
Definition loaded_ex : SpcWriter * heap :=
  match load (writer0 spc_ex) spc_ex heap0 with
  | inr p => p
  | inl _ => (writer0 spc_ex, heap0)
  end.

Lemma play_image_stack_frame_witness :
  load (writer0 spc_ex) spc_ex heap0 = inr (loaded_ex.1, loaded_ex.2) /\
  play_image loaded_ex.1 loaded_ex.2 0xFF = regSP spc_ex - 6.
Proof.
  assert (Hl : load (writer0 spc_ex) spc_ex heap0 = inr (loaded_ex.1, loaded_ex.2))
    by (vm_compute; reflexivity).
  split; [exact Hl|].
  assert (Hwf : wf_spc spc_ex) by (unfold wf_spc; simpl; lia).
  destruct (play_image_stack_frame (writer0 spc_ex) spc_ex heap0 _ _ Hwf
              ltac:(simpl; lia) Hl) as [H _].
  exact H.
Defined.

(** ** C3 and C4: the body phase of [loadSPC] *)

Lemma flat_map_map_comp {A B C} (f : B -> list C) (g : A -> B) (l : list A) :
  flat_map f (map g l) = flat_map (fun x => f (g x)) l.
Proof. induction l as [|x l IH]; simpl; [reflexivity|]. now rewrite IH. Qed.

Lemma loadSPC_chunks_addresses (img : image) :
  flat_map (fun c => Zrange c.1 (length c.2)) (loadSPC_chunks img) =
  Zrange 0x100 (Z.to_nat (0x10000 - 0x100)).
Proof.
  rewrite loadSPC_chunks_shape, flat_map_map_comp.
  rewrite (flat_map_ext _ (fun k => Zrange (0x100 + 128 * Z.of_nat k) 128)).
  - rewrite Zrange_chunks. f_equal; lia.
  - intros k. now rewrite chunk_at_length.
Qed.

(** C3. The body loop of [loadSPC] hands [writeSpcChunk] the chunks at
    [0x100, 0x180, ..., 0xFF80] in this order, each the 128 image bytes at
    its address; together they cover [[0x100, 0x10000)] once each. *)
Theorem loadSPC_body_chunks (img : image) :
  (forall st, spc_body_loop (Z.to_nat IMAGE_SIZE) img 0x100 st =
              run_chunks (loadSPC_chunks img) st) /\
  map fst (loadSPC_chunks img) =
    map (fun k => 0x100 + 128 * Z.of_nat k) (seq 0 510) /\
  Forall (fun c => length c.2 = 128%nat /\ c.2 = map img (Zrange c.1 128))
         (loadSPC_chunks img) /\
  flat_map (fun c => Zrange c.1 (length c.2)) (loadSPC_chunks img) =
    Zrange 0x100 (Z.to_nat (0x10000 - 0x100)) /\
  NoDup (flat_map (fun c => Zrange c.1 (length c.2)) (loadSPC_chunks img)).
Proof.
  split; [intros st; apply spc_body_loop_run_chunks|].
  split; [rewrite loadSPC_chunks_shape, map_map; reflexivity|].
  split.
  { rewrite loadSPC_chunks_shape. apply List.Forall_forall.
    intros c Hc. apply in_map_iff in Hc as (k & <- & Hk). apply in_seq in Hk.
    split; [apply chunk_at_length|].
    unfold chunk_at. simpl. apply copy_out_in_range; unfold IMAGE_SIZE; lia. }
  rewrite loadSPC_chunks_addresses. split; [reflexivity|].
  apply Zrange_NoDup.
Qed.

(** C4 (code defect). The last chunk of the body loop starts at [0xFF80]
    and covers [0xFFC0 .. 0xFFFF], the IPL area holding the vectors, which
    the loop's comment says is not sent ("before IPL RAM"). *)
Theorem loadSPC_body_sends_ipl_area (img : image) :
  exists c, In c (loadSPC_chunks img) /\ c.1 = 0xFF80 /\
    forall a, 0xFFC0 <= a < 0x10000 -> In a (Zrange c.1 (length c.2)).
Proof.
  exists (chunk_at img 509). split; [|split; [reflexivity|]].
  - rewrite loadSPC_chunks_shape. apply in_map, in_seq. lia.
  - intros a Ha. rewrite chunk_at_length. unfold Zrange.
    apply in_map_iff. exists (Z.to_nat (a - 0xFF80)). split.
    + simpl. lia.
    + apply in_seq. lia.
Qed.

(** ** C8: [writeBuffer] slices *)

(** C8. When [writeBuffer(buffer, 0)] resolves, it has done on the port a
    [write] of a slice of at most 64 bytes followed by its [drain], slice
    after slice, and the slices in order concatenate to [buffer]. *)
Theorem writeBuffer_slices (buffer : list Z) (st st' : port)
    (Hok : writeBuffer buffer 0 st = (Resolved tt, st')) :
  exists slices,
    wire st' = wire st ++ wire_of slices /\
    Forall (fun s => (length s <= 64)%nat) slices /\
    concat slices = buffer.
Proof.
  apply writeBuffer_go_resolved in Hok as (slices & Hw & Hf & Hc & _).
  exists slices. split; [exact Hw|]. split; [exact Hf|]. exact Hc.
Qed.

Definition port_ex : port := mkPort true [] [] [].

Lemma writeBuffer_slices_witness :
  writeBuffer (repeat 7 130) 0 port_ex =
    (Resolved tt, (writeBuffer (repeat 7 130) 0 port_ex).2) /\
  exists slices,
    wire (writeBuffer (repeat 7 130) 0 port_ex).2 = wire port_ex ++ wire_of slices /\
    Forall (fun s => (length s <= 64)%nat) slices /\
    concat slices = repeat 7 130.
Proof.
  assert (H : writeBuffer (repeat 7 130) 0 port_ex =
                (Resolved tt, (writeBuffer (repeat 7 130) 0 port_ex).2))
    by (vm_compute; reflexivity).
  split; [exact H|].
  exact (writeBuffer_slices (repeat 7 130) port_ex _ H).
Defined.

(** ** C10: commands on a port that is not open *)

(** C10. On a port that is not open, [writeAndWait] rejects with
    ['Port has not been opened'], and [reset], [initDsp], [loadSPC] and
    [play] all reject. *)
Theorem closed_port_rejects (st : port) (Hclosed : isOpen st = false) :
  (forall buffer, fst (writeAndWait buffer st) =
                  Rejected (PStr "Port has not been opened")) /\
  (exists e, fst (reset st) = Rejected e) /\
  (forall dl dr, exists e, fst (initDsp dl dr st) = Rejected e) /\
  (forall img, exists e, fst (loadSPC img st) = Rejected e) /\
  (forall a pv, exists e, fst (play a pv st) = Rejected e).
Proof.
  pose proof (fun b => writeAndWait_closed b st Hclosed) as Hw.
  split; [exact Hw|].
  split; [|split; [|split]].
  - unfold reset, catch, bind.
    destruct (writeAndWait _ st) as [o st1] eqn:E.
    pose proof (Hw (Buffer_from [CMD_RESET])) as Ho. rewrite E in Ho.
    simpl in Ho. subst o. eexists. reflexivity.
  - intros dl dr. unfold initDsp, catch, bind.
    destruct (writeAndWait _ st) as [o st1] eqn:E.
    pose proof (Hw (Buffer_from (CMD_LOAD_DSP :: prepareBufferForSending dl))) as Ho.
    rewrite E in Ho. simpl in Ho. subst o. eexists. reflexivity.
  - intros img. unfold loadSPC, catch, bind.
    destruct (writeAndWait _ st) as [o st1] eqn:E.
    pose proof (Hw (Buffer_from (CMD_START_SPC :: prepareBufferForSending
                   (copy_out img 2 (Z.to_nat ZERO_PAGE_SIZE))))) as Ho.
    rewrite E in Ho. simpl in Ho. subst o. eexists. reflexivity.
  - intros a pv. unfold play, bind.
    destruct (writeAndWait _ st) as [o st1] eqn:E.
    match type of E with writeAndWait ?b _ = _ => pose proof (Hw b) as Ho end.
    rewrite E in Ho. simpl in Ho. subst o. eexists. reflexivity.
Qed.

Lemma closed_port_rejects_witness :
  fst (writeAndWait [CMD_RESET] (mkPort false [] [] [])) =
    Rejected (PStr "Port has not been opened").
Proof.
  destruct (closed_port_rejects (mkPort false [] [] []) eq_refl) as [H _].
  apply H.
Defined.

(** ** C5: a BAD_CHECKSUM answer to the DSP-register frame *)

(** C5 (code defect). The device accepts the loader frame and answers the
    DSP-register frame with [RSP_BAD_CHECKSUM]: [writeAndWait] rejects with
    the data [Buffer], never [===] the number 3, so [initDsp] reports
    ['Unknown error'] instead of ['Failed checksum']; nothing is sent after
    the two frames. *)
Theorem initDsp_bad_checksum_reported_unknown (dl dr : list Z)
    (w0 : list wire_event) (rest : list port_event) :
  let st := mkPort true w0 (EvData [RSP_OKAY] :: EvData [RSP_BAD_CHECKSUM] :: rest) [] in
  exists s1 s2,
    initDsp dl dr st =
      (Rejected (PError "Error initializing DSP: Unknown error"),
       mkPort true (w0 ++ wire_of s1 ++ wire_of s2) rest []) /\
    concat s1 = Buffer_from (CMD_LOAD_DSP :: prepareBufferForSending dl) /\
    concat s2 = prepareBufferForSending dr.
Proof.
  intros st.
  destruct (writeAndWait_data (Buffer_from (CMD_LOAD_DSP :: prepareBufferForSending dl))
              st [RSP_OKAY] (EvData [RSP_BAD_CHECKSUM] :: rest) eq_refl eq_refl eq_refl)
    as (s1 & E1 & C1).
  change (bool_decide ([RSP_OKAY] !! 0%nat = Some RSP_OKAY)) with true in E1.
  destruct (writeAndWait_data (prepareBufferForSending dr)
              (mkPort true (wire st ++ wire_of s1) (EvData [RSP_BAD_CHECKSUM] :: rest) [])
              [RSP_BAD_CHECKSUM] rest eq_refl eq_refl eq_refl)
    as (s2 & E2 & C2).
  change (bool_decide ([RSP_BAD_CHECKSUM] !! 0%nat = Some RSP_OKAY)) with false in E2.
  exists s1, s2. split; [|split; assumption].
  unfold initDsp, catch, bind. rewrite E1. simpl in E2 |- *. rewrite E2.
  simpl. now rewrite app_assoc.
Qed.

(** ** C9: the templates are never written *)

(** C9. [load] writes the patched boot loader and DSP loader into two
    freshly allocated buffers; every buffer that existed before, the
    [BootLoader] and [DspLoader] templates included, is left unchanged. *)
Theorem load_keeps_templates (w0 : SpcWriter) (s : ISpc) (h : heap)
    (w : SpcWriter) (h' : heap) (Hload : load w0 s h = inr (w, h')) :
  (forall l, (l < length h)%nat -> h' !! l = h !! l) /\
  exists lb ld, bootLoader w = Some lb /\ dspLoader w = Some ld /\
    (length h <= lb)%nat /\ (length h <= ld)%nat /\ lb <> ld.
Proof.
  apply load_frame in Hload as (Hb & Hd & _ & _ & Hfr).
  split; [exact Hfr|].
  exists (length h), (S (length h)). repeat split; auto; lia.
Qed.

Lemma load_keeps_templates_witness :
  load (writer0 spc_ex) spc_ex heap0 = inr (loaded_ex.1, loaded_ex.2) /\
  loaded_ex.2 !! BootLoader = Some BootLoader_bytes /\
  loaded_ex.2 !! DspLoader = Some DspLoader_bytes.
Proof.
  assert (Hl : load (writer0 spc_ex) spc_ex heap0 = inr (loaded_ex.1, loaded_ex.2))
    by (vm_compute; reflexivity).
  destruct (load_keeps_templates _ _ _ _ _ Hl) as [Hfr _].
  split; [exact Hl|]. split.
  - rewrite (Hfr BootLoader) by (unfold BootLoader, heap0; simpl; lia).
    reflexivity.
  - rewrite (Hfr DspLoader) by (unfold DspLoader, heap0; simpl; lia).
    reflexivity.
Defined.

(** ** C6: the port-0 slot of the boot loader *)

Lemma buf_store_some (h : heap) (l : loc) (i : nat) (v : Z) (b : list Z) :
  h !! l = Some b ->
  exists b', buf_store h l i v !! l = Some b' /\ length b' = length b /\
    (forall j, j <> i -> b' !! j = b !! j) /\
    ((i < length b)%nat -> b' !! i = Some (ToUint8 v)).
Proof.
  intros Hb. exists (<[i := ToUint8 v]> b).
  split; [now apply buf_store_eq|]. split; [apply length_insert|].
  split.
  - intros j Hj. now apply list_lookup_insert_ne.
  - intros Hi. now apply list_lookup_insert_eq.
Qed.

Lemma writeBootLoader_slot10 (w : SpcWriter) (h : heap) (w' : SpcWriter) (h' : heap) :
  h !! BootLoader = Some BootLoader_bytes ->
  writeBootLoader w h = inr (w', h') ->
  exists b, h' !! length h = Some b /\
            b !! 16%nat = Some (ToUint8 (programData (spc w) 0xF4)).
Proof.
  intros Ht H. unfold writeBootLoader in H.
  destruct (_ =? -1); [discriminate|].
  simpl in H. injection H as _ <-.
  assert (Hbl : buf h BootLoader = BootLoader_bytes) by (unfold buf; now rewrite Ht).
  rewrite Hbl in *.
  assert (Hlt : (BootLoader < length h)%nat) by (eapply lookup_lt_Some; eauto).
  set (h1 := h ++ [replicate (length BootLoader_bytes) 0]).
  assert (H1 : h1 !! length h = Some (replicate (length BootLoader_bytes) 0)).
  { unfold h1. rewrite lookup_app_r by lia. now rewrite Nat.sub_diag. }
  assert (Hb1 : buf h1 BootLoader = BootLoader_bytes).
  { unfold buf, h1. rewrite lookup_app_l by exact Hlt. now rewrite Ht. }
  pose proof (buf_copy_eq h1 BootLoader (length h) _ H1) as H2.
  rewrite Hb1 in H2.
  set (b2 := take _ BootLoader_bytes ++ drop _ _) in H2.
  assert (Hl2 : length b2 = 47%nat) by reflexivity.
  destruct (buf_store_some _ _ 1 (programData (spc w) 0) _ H2) as (b3 & H3 & L3 & _ & _).
  destruct (buf_store_some _ _ 4 (programData (spc w) 1) _ H3) as (b4 & H4 & L4 & _ & _).
  destruct (buf_store_some _ _ 16 (programData (spc w) 0xF4) _ H4)
    as (b5 & H5 & L5 & _ & S5).
  assert (K5 : b5 !! 16%nat = Some (ToUint8 (programData (spc w) 0xF4)))
    by (apply S5; lia).
  destruct (buf_store_some _ _ 22 (programData (spc w) 0xF7) _ H5) as (b6 & H6 & _ & K6 & _).
  destruct (buf_store_some _ _ 26 (Z.land (programData (spc w) 0xF1) 0xCF) _ H6)
    as (b7 & H7 & _ & K7 & _).
  destruct (buf_store_some _ _ 32 (dspRegisters (spc w) 0x6C) _ H7) as (b8 & H8 & _ & K8 & _).
  destruct (buf_store_some _ _ 38 (dspRegisters (spc w) 0x47) _ H8) as (b9 & H9 & _ & K9 & _).
  destruct (buf_store_some _ _ 41 (programData (spc w) 0xF2) _ H9)
    as (b10 & H10 & _ & K10 & _).
  exists b10. split; [exact H10|].
  rewrite K10, K9, K8, K7, K6 by lia. exact K5.
Qed.

(** C6 (counterexample). For a snapshot whose port bytes [0xF4 .. 0xF7]
    are all 0, slot [0x10] of the patched boot loader holds 0x00. *)
Lemma bootLoader_slot10_zero_ports :
  (forall a, 0xF4 <= a <= 0xF7 -> programData spc_ex a = 0) /\
  buf loaded_ex.2 (default 0%nat (bootLoader loaded_ex.1)) !! 16%nat = Some 0.
Proof. split; [reflexivity | vm_compute; reflexivity]. Qed.

(** C6 (amended). Whenever [load] succeeds, slot [0x10] of the patched
    boot loader holds [programData[0xF4]] (as a byte), whatever the other
    port bytes are: there is no sentinel. *)
Theorem bootLoader_slot10_port0 (w0 : SpcWriter) (s : ISpc) (h : heap)
    (w : SpcWriter) (h' : heap)
    (Htpl : h !! BootLoader = Some BootLoader_bytes)
    (Hload : load w0 s h = inr (w, h')) :
  exists l, bootLoader w = Some l /\
            buf h' l !! 16%nat = Some (ToUint8 (programData s 0xF4)).
Proof.
  pose proof (load_frame _ _ _ _ _ Hload) as (Hbl & _ & _ & _ & _).
  exists (length h). split; [exact Hbl|].
  unfold load in Hload.
  destruct (writeBootLoader _ h) as [e|[w2 h2]] eqn:Hb; [discriminate|].
  pose proof (writeDspLoader_frame w2 h2) as Hw.
  destruct (writeDspLoader w2 h2) as [w3 h3].
  injection Hload as <- <-.
  destruct Hw as (_ & _ & _ & _ & _ & Hfr).
  pose proof (writeBootLoader_frame _ _ _ _ Hb) as (_ & _ & _ & _ & Hlen & _).
  destruct (writeBootLoader_slot10 _ _ _ _ Htpl Hb) as (b & Hhb & Hb16).
  unfold buf. rewrite Hfr by lia. rewrite Hhb. exact Hb16.
Qed.

Lemma bootLoader_slot10_port0_witness :
  load (writer0 spc_ex) spc_ex heap0 = inr (loaded_ex.1, loaded_ex.2) /\
  exists l, bootLoader loaded_ex.1 = Some l /\
            buf loaded_ex.2 l !! 16%nat = Some (ToUint8 (programData spc_ex 0xF4)).
Proof.
  assert (Hl : load (writer0 spc_ex) spc_ex heap0 = inr (loaded_ex.1, loaded_ex.2))
    by (vm_compute; reflexivity).
  split; [exact Hl|].
  exact (bootLoader_slot10_port0 (writer0 spc_ex) spc_ex heap0 _ _ eq_refl Hl).
Defined.

(* ================================================================== *)
(** * Further properties of the driver and the writer *)

(** The bytes the driver has put on the wire, in order. *)
Fixpoint written (ws : list wire_event) : list Z :=
  match ws with
  | [] => []
  | WWrite b :: r => b ++ written r
  | WDrain :: r => written r
  end.

Lemma written_app (a b : list wire_event) : written (a ++ b) = written a ++ written b.
Proof.
  induction a as [|[] a IH]; simpl; [reflexivity| |exact IH].
  rewrite IH. apply app_assoc.
Qed.

Lemma written_wire_of (slices : list (list Z)) : written (wire_of slices) = concat slices.
Proof. induction slices as [|s r IH]; simpl; [reflexivity|]. now rewrite IH. Qed.

Lemma removelast_cons_ne {A} (a : A) (l : list A) :
  l <> [] -> removelast (a :: l) = a :: removelast l.
Proof. destruct l; [congruence|reflexivity]. Qed.

Lemma last_cons_ne {A} (a d : A) (l : list A) : l <> [] -> List.last (a :: l) d = List.last l d.
Proof. destruct l; [congruence|reflexivity]. Qed.

Lemma writeBuffer_go_slices (fuel : nat) (buffer : list Z) (offset : nat)
    (o : bool) (w0 : list wire_event) (inc : list port_event) :
  (length buffer - offset < fuel)%nat ->
  exists slices,
    writeBuffer_go fuel buffer offset (mkPort o w0 inc []) =
      (Resolved tt, mkPort o (w0 ++ wire_of slices) inc []) /\
    concat slices = drop offset buffer /\ slices <> [] /\
    Forall (fun s => length s = 64%nat) (removelast slices) /\
    (length (List.last slices []) <= 64)%nat /\
    ((offset < length buffer)%nat -> (0 < length (List.last slices []))%nat).
Proof.
  revert offset w0; induction fuel as [|f IH]; intros offset w0 Hf; [lia|].
  simpl. unfold port_drain. simpl.
  set (chunk := if Nat.ltb MAX_SEND_SIZE (length buffer - offset)
                then MAX_SEND_SIZE else (length buffer - offset)%nat).
  assert (Hc : (chunk = 64 /\ 64 < length buffer - offset \/
                chunk = length buffer - offset /\ length buffer - offset <= 64)%nat).
  { unfold chunk, MAX_SEND_SIZE.
    destruct (Nat.ltb_spec 64 (length buffer - offset)); lia. }
  set (sb := take chunk (drop offset buffer)).
  assert (Hsb : length sb = Nat.min chunk (length buffer - offset)).
  { unfold sb. now rewrite length_take, length_drop. }
  destruct (Nat.ltb_spec (offset + chunk) (length buffer)) as [Hlt|Hge].
  - destruct (IH (offset + chunk)%nat (w0 ++ [WWrite sb] ++ [WDrain]))
      as (slices & E & Hcat & Hne & Hrl & Hl64 & Hpos); [lia|].
    exists (sb :: slices). rewrite <- app_assoc in E.
    rewrite removelast_cons_ne, last_cons_ne by exact Hne.
    simpl. rewrite <- (app_assoc w0 [WWrite sb] [WDrain]). cbn [app]. simpl in E. rewrite E. split.
    { reflexivity. }
    split; [|split; [congruence|]].
    { rewrite Hcat. unfold sb. rewrite <- drop_drop. apply take_drop. }
    split; [constructor; [lia|exact Hrl]|].
    split; [exact Hl64|]. intros _. apply Hpos. lia.
  - exists [sb]. split.
    { f_equal. f_equal. unfold wire_of. cbn [flat_map]. now rewrite <- app_assoc. }
    split.
    { simpl. rewrite app_nil_r. unfold sb. apply take_ge. rewrite length_drop. lia. }
    split; [congruence|]. simpl. split; [constructor|]. split; lia.
Qed.

Lemma ToUint8_idem (v : Z) : ToUint8 (ToUint8 v) = ToUint8 v.
Proof. unfold ToUint8. apply Z.mod_mod. lia. Qed.

Lemma Buffer_from_prepare (c : Z) (b : list Z) :
  Buffer_from (c :: prepareBufferForSending b) = ToUint8 c :: prepareBufferForSending b.
Proof.
  unfold Buffer_from, prepareBufferForSending. simpl. f_equal.
  unfold Buffer_from. rewrite map_map. apply map_ext. apply ToUint8_idem.
Qed.

Lemma Buffer_from_bytes (l : list Z) :
  Forall (fun x => 0 <= x < 256) l -> Buffer_from l = l.
Proof.
  induction 1 as [|x l Hx _ IH]; [reflexivity|].
  unfold Buffer_from in *. simpl. now rewrite IH, ToUint8_small.
Qed.

Lemma prepare_bytes (b : list Z) :
  Forall (fun x => 0 <= x < 256) b ->
  prepareBufferForSending b = b ++ [Zsum b mod 256].
Proof.
  intros Hb. unfold prepareBufferForSending. rewrite <- calculateChecksum_sum.
  apply Buffer_from_bytes. apply Forall_app. split; [exact Hb|].
  constructor; [|constructor]. rewrite calculateChecksum_sum. pose proof (Z.mod_pos_bound (Zsum b) 256). lia.
Qed.

(** [writeAndWait] on an open port whose drains all succeed. *)
Lemma writeAndWait_open (buffer : list Z) (w0 : list wire_event) (inc : list port_event) :
  exists slices, concat slices = buffer /\
    writeAndWait buffer (mkPort true w0 inc []) =
      (match inc with
       | [] => Pending
       | EvData d :: _ => if bool_decide (d !! 0%nat = Some RSP_OKAY)
                         then Resolved (PBuffer d) else Rejected (PBuffer d)
       | EvError e :: _ => Rejected (PStr e)
       end, mkPort true (w0 ++ wire_of slices) (tail inc) []).
Proof.
  destruct (writeBuffer_go_slices (S (length buffer)) buffer 0 true w0 inc)
    as (slices & E & Hc & _); [lia|].
  exists slices. split; [now rewrite drop_0 in Hc|].
  unfold writeAndWait, writeBuffer. rewrite E. simpl.
  destruct inc as [|[d|e] rest]; simpl; [reflexivity| |reflexivity].
  destruct (bool_decide _); reflexivity.
Qed.

Lemma writeAndWait_open_data (buffer : list Z) (w0 : list wire_event) (d : list Z)
    (rest : list port_event) :
  exists w',
    writeAndWait buffer (mkPort true w0 (EvData d :: rest) []) =
      (if bool_decide (d !! 0%nat = Some RSP_OKAY)
       then Resolved (PBuffer d) else Rejected (PBuffer d), mkPort true w' rest []) /\
    written w' = written w0 ++ buffer.
Proof.
  destruct (writeAndWait_open buffer w0 (EvData d :: rest)) as (slices & Hc & E).
  eexists. split; [exact E|]. now rewrite written_app, written_wire_of, Hc.
Qed.

Lemma writeAndWait_open_ok (buffer : list Z) (w0 : list wire_event) (d : list Z)
    (rest : list port_event) :
  d !! 0%nat = Some RSP_OKAY ->
  exists w',
    writeAndWait buffer (mkPort true w0 (EvData d :: rest) []) =
      (Resolved (PBuffer d), mkPort true w' rest []) /\
    written w' = written w0 ++ buffer.
Proof.
  intros Hd. destruct (writeAndWait_open_data buffer w0 d rest) as (w' & E & Hw).
  exists w'. rewrite bool_decide_eq_true_2 in E by exact Hd. auto.
Qed.

Lemma writeAndWait_open_fail (buffer : list Z) (w0 : list wire_event) (d : list Z)
    (rest : list port_event) :
  d !! 0%nat <> Some RSP_OKAY ->
  exists w',
    writeAndWait buffer (mkPort true w0 (EvData d :: rest) []) =
      (Rejected (PBuffer d), mkPort true w' rest []) /\
    written w' = written w0 ++ buffer.
Proof.
  intros Hd. destruct (writeAndWait_open_data buffer w0 d rest) as (w' & E & Hw).
  exists w'. rewrite bool_decide_eq_false_2 in E by exact Hd. auto.
Qed.

(** ** Extra properties of [Spcduino] *)

(** X1. [writeBuffer] cuts a buffer into slices of exactly [MAX_SEND_SIZE]
    bytes, followed by one last slice of at most 64 bytes that is non-empty
    unless the buffer is; an empty buffer still costs one (empty) write and
    one drain. *)
Theorem writeBuffer_full_slices (buffer : list Z) (o : bool) (w0 : list wire_event)
    (inc : list port_event) :
  exists slices,
    writeBuffer buffer 0 (mkPort o w0 inc []) =
      (Resolved tt, mkPort o (w0 ++ wire_of slices) inc []) /\
    concat slices = buffer /\ slices <> [] /\
    Forall (fun s => length s = MAX_SEND_SIZE) (removelast slices) /\
    (length (List.last slices []) <= MAX_SEND_SIZE)%nat /\
    (buffer = [] \/ (0 < length (List.last slices []))%nat).
Proof.
  destruct (writeBuffer_go_slices (S (length buffer)) buffer 0 o w0 inc)
    as (slices & E & Hc & Hne & Hrl & Hl & Hp); [lia|].
  exists slices. rewrite drop_0 in Hc.
  split; [exact E|]. split; [exact Hc|]. split; [exact Hne|].
  split; [exact Hrl|]. split; [exact Hl|].
  destruct buffer; [now left|right]. apply Hp. simpl. lia.
Qed.

(** X2. On an open port, [writeAndWait] sends the whole buffer, then settles
    on the first data event: it resolves with that data when its first byte is
    [RSP_OKAY] and rejects with it otherwise (an empty reply included); the
    event is consumed and the later ones are left. *)
Theorem writeAndWait_settles_on_reply (buffer : list Z) (w0 : list wire_event)
    (d : list Z) (rest : list port_event) :
  exists w',
    writeAndWait buffer (mkPort true w0 (EvData d :: rest) []) =
      (if bool_decide (d !! 0%nat = Some RSP_OKAY)
       then Resolved (PBuffer d) else Rejected (PBuffer d), mkPort true w' rest []) /\
    written w' = written w0 ++ buffer.
Proof. apply writeAndWait_open_data. Qed.

(** X3. An error event on the port, arriving where the reply is awaited,
    rejects [writeAndWait] with that error after the buffer has been sent. *)
Theorem writeAndWait_port_error (buffer : list Z) (w0 : list wire_event) (e : string)
    (rest : list port_event) :
  exists w',
    writeAndWait buffer (mkPort true w0 (EvError e :: rest) []) =
      (Rejected (PStr e), mkPort true w' rest []) /\
    written w' = written w0 ++ buffer.
Proof.
  destruct (writeAndWait_open buffer w0 (EvError e :: rest)) as (slices & Hc & E).
  eexists. split; [exact E|]. now rewrite written_app, written_wire_of, Hc.
Qed.

(** X4. [writeAndWait] has no timeout: on an open port where the device never
    answers, the whole buffer is sent and the promise never settles. *)
Theorem writeAndWait_no_reply_pending (buffer : list Z) (w0 : list wire_event) :
  exists w',
    writeAndWait buffer (mkPort true w0 [] []) = (Pending, mkPort true w' [] []) /\
    written w' = written w0 ++ buffer.
Proof.
  destruct (writeAndWait_open buffer w0 []) as (slices & Hc & E).
  eexists. split; [exact E|]. now rewrite written_app, written_wire_of, Hc.
Qed.

(** X5. When the first drain fails, [writeAndWait] rejects with the drain
    error after writing only the first slice (the first 64 bytes); no reply is
    consumed. *)
Theorem writeAndWait_drain_failure (buffer : list Z) (w0 : list wire_event)
    (inc : list port_event) (r : list bool) :
  writeAndWait buffer (mkPort true w0 inc (false :: r)) =
    (Rejected (PStr "drain error"),
     mkPort true (w0 ++ [WWrite (take MAX_SEND_SIZE buffer); WDrain]) inc r).
Proof.
  unfold writeAndWait, writeBuffer. simpl.
  rewrite Nat.sub_0_r, drop_0, <- app_assoc. simpl. f_equal. f_equal. f_equal.
  f_equal. f_equal.
  destruct (Nat.ltb_spec MAX_SEND_SIZE (length buffer)); [reflexivity|].
  rewrite !take_ge by lia. reflexivity.
Qed.

(** X6. [reset] sends the single byte [CMD_RESET] and consumes one reply: it
    resolves when the reply starts with [RSP_OKAY] and otherwise rejects with
    the error "Error resetting SPC". *)
Theorem reset_exchange (w0 : list wire_event) (d : list Z) (rest : list port_event) :
  exists w',
    reset (mkPort true w0 (EvData d :: rest) []) =
      (if bool_decide (d !! 0%nat = Some RSP_OKAY)
       then Resolved tt else Rejected (PError "Error resetting SPC"),
       mkPort true w' rest []) /\
    written w' = written w0 ++ [CMD_RESET].
Proof.
  destruct (writeAndWait_open_data (Buffer_from [CMD_RESET]) w0 d rest) as (w' & E & Hw).
  exists w'. split; [|exact Hw].
  unfold reset, catch, bind. rewrite E.
  destruct (bool_decide _); reflexivity.
Qed.

(** X7. Whatever goes wrong, [reset] rejects with the one error
    "Error resetting SPC". *)
Theorem reset_rejection_message (st st' : port) (e : payload) :
  reset st = (Rejected e, st') -> e = PError "Error resetting SPC".
Proof.
  unfold reset, catch, bind.
  destruct (writeAndWait _ st) as [[]] ; intros H; inversion H; reflexivity.
Qed.

Lemma reset_rejection_message_witness :
  reset (mkPort false [] [] []) =
    (Rejected (PError "Error resetting SPC"),
     mkPort false [WWrite [1]; WDrain] [] []) /\
  PError "Error resetting SPC" = PError "Error resetting SPC".
Proof.
  split; [vm_compute; reflexivity|].
  exact (reset_rejection_message (mkPort false [] [] []) _ _
           ltac:(vm_compute; reflexivity)).
Defined.

Lemma addr_lo_hi (addr : Z) :
  0 <= addr < 0x10000 ->
  ToUint8 (Z.land addr 0xFF) = addr mod 256 /\ ToUint8 (Z.shiftr addr 8) = addr / 256.
Proof.
  intros Ha. rewrite land_255_mod, Z.shiftr_div_pow2 by lia.
  change (2 ^ 8) with 256.
  split; apply ToUint8_small.
  - pose proof (Z.mod_pos_bound addr 256). lia.
  - split; [apply Z.div_pos | apply Z.div_lt_upper_bound]; lia.
Qed.

Lemma addr_lo_hi_bytes (addr : Z) :
  0 <= addr < 0x10000 -> 0 <= addr mod 256 < 256 /\ 0 <= addr / 256 < 256.
Proof.
  intros Ha. split.
  - pose proof (Z.mod_pos_bound addr 256). lia.
  - split; [apply Z.div_pos | apply Z.div_lt_upper_bound]; lia.
Qed.

Lemma play_frame_bytes (addr : Z) (portValues : list Z) :
  0 <= addr < 0x10000 -> Forall (fun x => 0 <= x < 256) portValues ->
  Buffer_from (CMD_PLAY :: prepareBufferForSending
    (Buffer_from ([Z.land addr 0xFF; Z.shiftr addr 8] ++ portValues))) =
  CMD_PLAY :: addr mod 256 :: addr / 256 :: portValues ++
    [(addr mod 256 + addr / 256 + Zsum portValues) mod 256].
Proof.
  intros Ha Hp. rewrite Buffer_from_prepare.
  destruct (addr_lo_hi addr Ha) as [Hlo Hhi].
  assert (HB : Buffer_from ([Z.land addr 0xFF; Z.shiftr addr 8] ++ portValues) =
                [addr mod 256; addr / 256] ++ portValues).
  { rewrite <- (Buffer_from_bytes portValues Hp) at 2.
    unfold Buffer_from. rewrite map_app. simpl. now rewrite Hlo, Hhi. }
  rewrite HB. change (ToUint8 CMD_PLAY) with CMD_PLAY.
  rewrite prepare_bytes.
  - simpl. do 3 f_equal. f_equal. f_equal. f_equal. lia.
  - destruct (addr_lo_hi_bytes addr Ha).
    constructor; [lia|]. constructor; [lia|]. exact Hp.
Qed.

Lemma chunk_header_bytes (addr : Z) (n : nat) :
  0 <= addr < 0x10000 -> (n < 256)%nat ->
  Buffer_from (CMD_SPC_CHUNK :: prepareBufferForSending
    (Buffer_from [Z.land addr 0xFF; Z.shiftr addr 8; Z.of_nat n])) =
  [CMD_SPC_CHUNK; addr mod 256; addr / 256; Z.of_nat n;
   (addr mod 256 + addr / 256 + Z.of_nat n) mod 256].
Proof.
  intros Ha Hn. rewrite Buffer_from_prepare.
  destruct (addr_lo_hi addr Ha) as [Hlo Hhi].
  unfold Buffer_from. simpl map. rewrite Hlo, Hhi, (ToUint8_small (Z.of_nat n)) by lia.
  change (ToUint8 CMD_SPC_CHUNK) with CMD_SPC_CHUNK.
  destruct (addr_lo_hi_bytes addr Ha).
  rewrite prepare_bytes by (constructor; [lia|]; constructor; [lia|]; constructor; [lia|constructor]).
  simpl. now rewrite Z.add_0_r, !Z.add_assoc.
Qed.

(** X8. [Spcduino.play] sends one frame [CMD_PLAY, addr & 0xFF, addr >> 8,
    port values..., checksum], whose checksum covers the bytes after the
    command; unlike the other commands it does not wrap a refusal: a reply
    that does not start with [RSP_OKAY] is passed up as the rejection itself. *)
Theorem play_exchange (addr : Z) (portValues : list Z) (w0 : list wire_event)
    (d : list Z) (rest : list port_event)
    (Ha : 0 <= addr < 0x10000) (Hp : Forall (fun x => 0 <= x < 256) portValues) :
  exists w',
    play addr portValues (mkPort true w0 (EvData d :: rest) []) =
      (if bool_decide (d !! 0%nat = Some RSP_OKAY)
       then Resolved tt else Rejected (PBuffer d), mkPort true w' rest []) /\
    written w' = written w0 ++
      CMD_PLAY :: addr mod 256 :: addr / 256 :: portValues ++
      [(addr mod 256 + addr / 256 + Zsum portValues) mod 256].
Proof.
  destruct (writeAndWait_open_data (Buffer_from (CMD_PLAY :: prepareBufferForSending
    (Buffer_from ([Z.land addr 0xFF; Z.shiftr addr 8] ++ portValues)))) w0 d rest)
    as (w' & E & Hw).
  exists w'. split.
  - unfold play, bind. cbv zeta. rewrite E. destruct (bool_decide _); reflexivity.
  - rewrite Hw, play_frame_bytes by assumption. reflexivity.
Qed.

Lemma play_exchange_witness :
  exists w',
    play 0x1234 [1; 2; 3; 4] (mkPort true [] [EvData [1]] []) =
      (Resolved tt, mkPort true w' [] []) /\
    written w' = [5; 0x34; 0x12; 1; 2; 3; 4; 80].
Proof.
  destruct (play_exchange 0x1234 [1; 2; 3; 4] [] [1] [] ltac:(lia)
              ltac:(repeat constructor; lia)) as (w' & E & Hw).
  exists w'. split; [exact E|]. rewrite Hw. reflexivity.
Defined.

Definition chunk_header (addr : Z) (n : nat) : list Z :=
  [CMD_SPC_CHUNK; addr mod 256; addr / 256; Z.of_nat n;
   (addr mod 256 + addr / 256 + Z.of_nat n) mod 256].

Lemma writeSpcChunk_data (addr : Z) (buffer : list Z) (w0 : list wire_event)
    (d1 d2 : list Z) (rest : list port_event)
    (Ha : 0 <= addr < 0x10000) (Hl : (length buffer < 256)%nat)
    (Hb : Forall (fun x => 0 <= x < 256) buffer)
    (Hd1 : d1 !! 0%nat = Some RSP_OKAY) :
  exists w',
    writeSpcChunk addr buffer (mkPort true w0 (EvData d1 :: EvData d2 :: rest) []) =
      (if bool_decide (d2 !! 0%nat = Some RSP_OKAY) then Resolved tt
       else Rejected (PErrorWith "Error writing SPC data chunk: " (PBuffer d2)),
       mkPort true w' rest []) /\
    written w' = written w0 ++ chunk_header addr (length buffer) ++
                 buffer ++ [Zsum buffer mod 256].
Proof.
  set (hdr := Buffer_from (CMD_SPC_CHUNK :: prepareBufferForSending
    (Buffer_from [Z.land addr 0xFF; Z.shiftr addr 8; Z.of_nat (length buffer)]))).
  destruct (writeAndWait_open_ok hdr w0 d1 (EvData d2 :: rest) Hd1) as (w1 & E1 & Hw1).
  destruct (writeAndWait_open_data (prepareBufferForSending buffer) w1 d2 rest)
    as (w2 & E2 & Hw2).
  exists w2. split.
  - unfold writeSpcChunk, catch, bind. cbv zeta. fold hdr. rewrite E1. simpl.
    rewrite E2. destruct (bool_decide _); reflexivity.
  - rewrite Hw2, Hw1, <- app_assoc. unfold hdr.
    rewrite chunk_header_bytes, prepare_bytes by assumption. reflexivity.
Qed.

(** X9. [writeSpcChunk] sends the header frame [CMD_SPC_CHUNK, addr & 0xFF,
    addr >> 8, length, checksum] and, once it is acknowledged, the data
    followed by its checksum; a refusal of the data is reported wrapped in
    "Error writing SPC data chunk: ". *)
Theorem writeSpcChunk_exchange (addr : Z) (buffer : list Z) (w0 : list wire_event)
    (d1 d2 : list Z) (rest : list port_event)
    (Ha : 0 <= addr < 0x10000) (Hl : (length buffer < 256)%nat)
    (Hb : Forall (fun x => 0 <= x < 256) buffer)
    (Hd1 : d1 !! 0%nat = Some RSP_OKAY) :
  exists w',
    writeSpcChunk addr buffer (mkPort true w0 (EvData d1 :: EvData d2 :: rest) []) =
      (if bool_decide (d2 !! 0%nat = Some RSP_OKAY) then Resolved tt
       else Rejected (PErrorWith "Error writing SPC data chunk: " (PBuffer d2)),
       mkPort true w' rest []) /\
    written w' = written w0 ++ chunk_header addr (length buffer) ++
                 buffer ++ [Zsum buffer mod 256].
Proof. now apply writeSpcChunk_data. Qed.

Lemma writeSpcChunk_exchange_witness :
  exists w',
    writeSpcChunk 0x1280 [7; 8] (mkPort true [] [EvData [1]; EvData [1]] []) =
      (Resolved tt, mkPort true w' [] []) /\
    written w' = [4; 0x80; 0x12; 2; 0x94; 7; 8; 15].
Proof.
  destruct (writeSpcChunk_exchange 0x1280 [7; 8] [] [1] [1] [] ltac:(lia)
              ltac:(simpl; lia) ltac:(repeat constructor; lia) eq_refl) as (w' & E & Hw).
  exists w'. split; [exact E|]. rewrite Hw. reflexivity.
Defined.

(** X10. When the device refuses the header of a chunk, [writeSpcChunk]
    rejects with the refusal wrapped in "Error writing SPC data chunk: " and
    never sends the data; the following events are left unread. *)
Theorem writeSpcChunk_header_refused (addr : Z) (buffer : list Z) (w0 : list wire_event)
    (d1 : list Z) (rest : list port_event)
    (Ha : 0 <= addr < 0x10000) (Hl : (length buffer < 256)%nat)
    (Hd1 : d1 !! 0%nat <> Some RSP_OKAY) :
  exists w',
    writeSpcChunk addr buffer (mkPort true w0 (EvData d1 :: rest) []) =
      (Rejected (PErrorWith "Error writing SPC data chunk: " (PBuffer d1)),
       mkPort true w' rest []) /\
    written w' = written w0 ++ chunk_header addr (length buffer).
Proof.
  set (hdr := Buffer_from (CMD_SPC_CHUNK :: prepareBufferForSending
    (Buffer_from [Z.land addr 0xFF; Z.shiftr addr 8; Z.of_nat (length buffer)]))).
  destruct (writeAndWait_open_fail hdr w0 d1 rest Hd1) as (w1 & E1 & Hw1).
  exists w1. split.
  - unfold writeSpcChunk, catch, bind. cbv zeta. fold hdr. rewrite E1. reflexivity.
  - rewrite Hw1. unfold hdr. rewrite chunk_header_bytes by assumption. reflexivity.
Qed.

Lemma writeSpcChunk_header_refused_witness :
  exists w',
    writeSpcChunk 0x1280 [7; 8] (mkPort true [] [EvData [3]; EvData [1]] []) =
      (Rejected (PErrorWith "Error writing SPC data chunk: " (PBuffer [3])),
       mkPort true w' [EvData [1]] []) /\
    written w' = [4; 0x80; 0x12; 2; 0x94].
Proof.
  destruct (writeSpcChunk_header_refused 0x1280 [7; 8] [] [3] [EvData [1]] ltac:(lia)
              ltac:(simpl; lia) ltac:(discriminate)) as (w' & E & Hw).
  exists w'. split; [exact E|]. rewrite Hw. reflexivity.
Defined.

(** X11. [initDsp] sends the frame [CMD_LOAD_DSP, loader..., checksum] and,
    once it is acknowledged, the frame [registers..., checksum]; it resolves
    when the second reply starts with [RSP_OKAY] and otherwise rejects with
    "Error initializing DSP: Unknown error". *)
Theorem initDsp_exchange (dl dr : list Z) (w0 : list wire_event) (d1 d2 : list Z)
    (rest : list port_event)
    (Hl : Forall (fun x => 0 <= x < 256) dl) (Hr : Forall (fun x => 0 <= x < 256) dr)
    (Hd1 : d1 !! 0%nat = Some RSP_OKAY) :
  exists w',
    initDsp dl dr (mkPort true w0 (EvData d1 :: EvData d2 :: rest) []) =
      (if bool_decide (d2 !! 0%nat = Some RSP_OKAY) then Resolved tt
       else Rejected (PError "Error initializing DSP: Unknown error"),
       mkPort true w' rest []) /\
    written w' = written w0 ++ (CMD_LOAD_DSP :: dl ++ [Zsum dl mod 256]) ++
                 dr ++ [Zsum dr mod 256].
Proof.
  destruct (writeAndWait_open_ok (Buffer_from (CMD_LOAD_DSP :: prepareBufferForSending dl))
              w0 d1 (EvData d2 :: rest) Hd1) as (w1 & E1 & Hw1).
  destruct (writeAndWait_open_data (prepareBufferForSending dr) w1 d2 rest)
    as (w2 & E2 & Hw2).
  exists w2. split.
  - unfold initDsp, catch, bind. cbv zeta. rewrite E1. simpl.
    rewrite E2. destruct (bool_decide _); reflexivity.
  - rewrite Hw2, Hw1, <- app_assoc, Buffer_from_prepare.
    rewrite (prepare_bytes dl Hl), (prepare_bytes dr Hr). reflexivity.
Qed.

Lemma initDsp_exchange_witness :
  exists w',
    initDsp [10; 20] [30] (mkPort true [] [EvData [1]; EvData [1]] []) =
      (Resolved tt, mkPort true w' [] []) /\
    written w' = [2; 10; 20; 30; 30; 30].
Proof.
  destruct (initDsp_exchange [10; 20] [30] [] [1] [1] [] ltac:(repeat constructor; lia)
              ltac:(repeat constructor; lia) eq_refl) as (w' & E & Hw).
  exists w'. split; [exact E|]. rewrite Hw. reflexivity.
Defined.

(** X12. When the device refuses the loader frame, [initDsp] rejects with
    "Error initializing DSP: Unknown error" and never sends the register
    frame; the following events are left unread. *)
Theorem initDsp_loader_refused (dl dr : list Z) (w0 : list wire_event) (d1 : list Z)
    (rest : list port_event)
    (Hl : Forall (fun x => 0 <= x < 256) dl) (Hd1 : d1 !! 0%nat <> Some RSP_OKAY) :
  exists w',
    initDsp dl dr (mkPort true w0 (EvData d1 :: rest) []) =
      (Rejected (PError "Error initializing DSP: Unknown error"), mkPort true w' rest []) /\
    written w' = written w0 ++ CMD_LOAD_DSP :: dl ++ [Zsum dl mod 256].
Proof.
  destruct (writeAndWait_open_fail (Buffer_from (CMD_LOAD_DSP :: prepareBufferForSending dl))
              w0 d1 rest Hd1) as (w1 & E1 & Hw1).
  exists w1. split.
  - unfold initDsp, catch, bind. cbv zeta. rewrite E1. reflexivity.
  - rewrite Hw1, Buffer_from_prepare, (prepare_bytes dl Hl). reflexivity.
Qed.

Lemma initDsp_loader_refused_witness :
  exists w',
    initDsp [10; 20] [30] (mkPort true [] [EvData [2]; EvData [1]] []) =
      (Rejected (PError "Error initializing DSP: Unknown error"),
       mkPort true w' [EvData [1]] []) /\
    written w' = [2; 10; 20; 30].
Proof.
  destruct (initDsp_loader_refused [10; 20] [30] [] [2] [EvData [1]]
              ltac:(repeat constructor; lia) ltac:(discriminate)) as (w' & E & Hw).
  exists w'. split; [exact E|]. rewrite Hw. reflexivity.
Defined.

(** X13. Whatever goes wrong, [initDsp] rejects with the one error
    "Error initializing DSP: Unknown error": its test [exc === RSP_BAD_CHECKSUM]
    never holds for what the driver rejects with. *)
Theorem initDsp_rejection_message (dl dr : list Z) (st st' : port) (e : payload) :
  initDsp dl dr st = (Rejected e, st') ->
  e = PError "Error initializing DSP: Unknown error".
Proof.
  unfold initDsp, catch.
  destruct (bind _ _ st) as [[|e0|] st1]; intros H; inversion H.
  destruct e0; reflexivity.
Qed.

Lemma initDsp_rejection_message_witness :
  PError "Error initializing DSP: Unknown error" =
  PError "Error initializing DSP: Unknown error".
Proof.
  exact (initDsp_rejection_message [] [] (mkPort true [] [EvData [3]] []) _ _
           ltac:(vm_compute; reflexivity)).
Defined.

(** X14. Whatever goes wrong, [loadSPC] rejects with the one error
    "Error loading SPC data: Unknown error". *)
Theorem loadSPC_rejection_message (img : image) (st st' : port) (e : payload) :
  loadSPC img st = (Rejected e, st') ->
  e = PError "Error loading SPC data: Unknown error".
Proof.
  unfold loadSPC, catch.
  destruct (bind _ _ st) as [[|e0|] st1]; intros H; inversion H.
  destruct e0; reflexivity.
Qed.

Lemma loadSPC_rejection_message_witness :
  PError "Error loading SPC data: Unknown error" =
  PError "Error loading SPC data: Unknown error".
Proof.
  exact (loadSPC_rejection_message (fun _ => 0) (mkPort true [] [EvData [3]] []) _ _
           ltac:(vm_compute; reflexivity)).
Defined.

Lemma flat_map_ext_in {A B} (f g : A -> list B) (l : list A) :
  (forall x, In x l -> f x = g x) -> flat_map f l = flat_map g l.
Proof.
  induction l as [|x l IH]; intros H; simpl; [reflexivity|].
  rewrite H by (left; reflexivity). f_equal. apply IH. intros y Hy. apply H. now right.
Qed.

Lemma image_bytes_map (img : image) (l : list Z) :
  (forall a, 0 <= img a < 256) -> Forall (fun x => 0 <= x < 256) (map img l).
Proof. intros H. apply List.Forall_forall. intros x Hx. apply in_map_iff in Hx as (a & <- & _). apply H. Qed.

Lemma copy_out_bytes (img : image) (a : Z) (n : nat) :
  (forall a, 0 <= img a < 256) -> Forall (fun x => 0 <= x < 256) (copy_out img a n).
Proof.
  intros H. apply List.Forall_forall. intros x Hx. unfold copy_out in Hx.
  apply in_map_iff in Hx as (i & <- & _).
  destruct (_ <? _); [apply H | lia].
Qed.

Lemma bind_resolved {A B} (m : M A) (k : A -> M B) (st st' : port) (a : A) :
  m st = (Resolved a, st') -> bind m k st = k a st'.
Proof. intros E. unfold bind. now rewrite E. Qed.

Lemma catch_resolved {A} (m : M A) (h : payload -> M A) (st st' : port) (a : A) :
  m st = (Resolved a, st') -> catch m h st = (Resolved a, st').
Proof. intros E. unfold catch. now rewrite E. Qed.

Lemma loadSPC_chunks_body (img : image) :
  loadSPC_chunks img = body_schedule (Z.to_nat IMAGE_SIZE) img 0x100.
Proof. reflexivity. Qed.

Definition chunk_frames (c : Z * list Z) : list Z :=
  chunk_header c.1 (length c.2) ++ c.2 ++ [Zsum c.2 mod 256].

Lemma run_chunks_ok (cs : list (Z * list Z)) (w0 : list wire_event)
    (rest : list port_event) :
  Forall (fun c => 0 <= c.1 < 0x10000 /\ (length c.2 < 256)%nat /\
                   Forall (fun x => 0 <= x < 256) c.2) cs ->
  exists w',
    run_chunks cs (mkPort true w0 (repeat (EvData [RSP_OKAY]) (2 * length cs) ++ rest) []) =
      (Resolved tt, mkPort true w' rest []) /\
    written w' = written w0 ++ flat_map chunk_frames cs.
Proof.
  revert w0; induction cs as [|[a b] cs IH]; intros w0 Hcs.
  - exists w0. split; [reflexivity|]. simpl. now rewrite app_nil_r.
  - inversion Hcs as [|? ? (Ha & Hl & Hb) Hcs']; subst.
    replace (2 * length ((a, b) :: cs))%nat with (S (S (2 * length cs))) by (simpl; lia).
    cbn [repeat app run_chunks].
    destruct (writeSpcChunk_data a b w0 [RSP_OKAY] [RSP_OKAY]
                (repeat (EvData [RSP_OKAY]) (2 * length cs) ++ rest) Ha Hl Hb eq_refl)
      as (w1 & E1 & Hw1).
    rewrite bool_decide_eq_true_2 in E1 by reflexivity.
    destruct (IH w1 Hcs') as (w2 & E2 & Hw2).
    exists w2. split.
    + unfold bind. rewrite E1. exact E2.
    + rewrite Hw2, Hw1. cbn [flat_map].
      change (chunk_frames (a, b)) with (chunk_header a (length b) ++ b ++ [Zsum b mod 256]).
      now rewrite <- !app_assoc.
Qed.

Definition zero_page_frame (img : image) : list Z :=
  CMD_START_SPC :: map img (Zrange 2 237) ++ [Zsum (map img (Zrange 2 237)) mod 256].

Lemma loadSPC_zero_page_bytes (img : image) :
  (forall a, 0 <= img a < 256) ->
  Buffer_from (CMD_START_SPC :: prepareBufferForSending
    (copy_out img 2 (Z.to_nat ZERO_PAGE_SIZE))) = zero_page_frame img.
Proof.
  intros H. rewrite Buffer_from_prepare.
  change (Z.to_nat ZERO_PAGE_SIZE) with 237%nat.
  rewrite copy_out_in_range by (unfold IMAGE_SIZE; lia).
  rewrite prepare_bytes by (apply image_bytes_map; exact H).
  reflexivity.
Qed.

(** X15. A complete transfer: when the device acknowledges every frame,
    [loadSPC] sends the zero-page frame [CMD_START_SPC, bytes 0x02..0xEE,
    checksum], then for each of the 510 chunks at [0x100 + 0x80 k] its header
    frame and its 128 bytes with their checksum, consuming exactly 1021
    replies, and resolves. *)
Theorem loadSPC_transfer (img : image) (w0 : list wire_event) (rest : list port_event)
    (Himg : forall a, 0 <= img a < 256) :
  exists w',
    loadSPC img (mkPort true w0 (repeat (EvData [RSP_OKAY]) 1021 ++ rest) []) =
      (Resolved tt, mkPort true w' rest []) /\
    written w' = written w0 ++ zero_page_frame img ++
      flat_map (fun k => let a := 0x100 + 128 * Z.of_nat k in
                         chunk_header a 128 ++ map img (Zrange a 128) ++
                         [Zsum (map img (Zrange a 128)) mod 256]) (seq 0 510).
Proof.
  change (repeat ?x 1021 ++ ?r) with (x :: (repeat x 1020 ++ r)).
  destruct (writeAndWait_open_ok (Buffer_from (CMD_START_SPC :: prepareBufferForSending
                (copy_out img 2 (Z.to_nat ZERO_PAGE_SIZE)))) w0 [RSP_OKAY]
              (repeat (EvData [RSP_OKAY]) 1020 ++ rest) eq_refl) as (w1 & E1 & Hw1).
  set (cs := map (chunk_at img) (seq 0 510)).
  assert (Hcs : Forall (fun c => 0 <= c.1 < 0x10000 /\ (length c.2 < 256)%nat /\
                   Forall (fun x => 0 <= x < 256) c.2) cs).
  { apply List.Forall_forall. intros c Hc. unfold cs in Hc.
    apply in_map_iff in Hc as (k & <- & Hk). apply in_seq in Hk.
    rewrite chunk_at_length. unfold chunk_at. simpl.
    split; [lia|]. split; [lia|]. apply copy_out_bytes. exact Himg. }
  destruct (run_chunks_ok cs w1 rest Hcs) as (w2 & E2 & Hw2).
  unfold cs in E2. rewrite length_map, length_seq in E2.
  change (2 * 510)%nat with 1020%nat in E2.
  exists w2. split.
  - unfold loadSPC. cbv zeta. apply catch_resolved.
    rewrite (bind_resolved _ _ _ _ _ E1).
    rewrite spc_body_loop_run_chunks, <- loadSPC_chunks_body, loadSPC_chunks_shape.
    exact E2.
  - rewrite Hw2, Hw1, <- app_assoc.
    rewrite loadSPC_zero_page_bytes by exact Himg.
    unfold cs. rewrite flat_map_map_comp. erewrite (flat_map_ext_in _ _ (seq 0 510));
      [reflexivity|].
    intros k Hk. apply in_seq in Hk. cbv beta.
    unfold chunk_frames, chunk_at. simpl fst. simpl snd.
    unfold copy_out at 1. rewrite length_map, length_seq.
    rewrite copy_out_in_range by (unfold IMAGE_SIZE; lia).
    reflexivity.
Qed.

Lemma loadSPC_transfer_witness :
  exists w',
    loadSPC (fun _ => 0) (mkPort true [] (repeat (EvData [RSP_OKAY]) 1021) []) =
      (Resolved tt, mkPort true w' [] []) /\
    take 5 (drop 239 (written w')) = [4; 0; 1; 128; 129].
Proof.
  destruct (loadSPC_transfer (fun _ => 0) [] [] ltac:(intros; lia)) as (w' & E & Hw).
  rewrite app_nil_r in E. exists w'. split; [exact E|].
  rewrite Hw. vm_compute. reflexivity.
Defined.

(** X16. When the device refuses the zero-page frame, [loadSPC] rejects with
    "Error loading SPC data: Unknown error" without sending any chunk. *)
Theorem loadSPC_zero_page_refused (img : image) (w0 : list wire_event) (d : list Z)
    (rest : list port_event)
    (Himg : forall a, 0 <= img a < 256) (Hd : d !! 0%nat <> Some RSP_OKAY) :
  exists w',
    loadSPC img (mkPort true w0 (EvData d :: rest) []) =
      (Rejected (PError "Error loading SPC data: Unknown error"), mkPort true w' rest []) /\
    written w' = written w0 ++ zero_page_frame img.
Proof.
  set (cmd := Buffer_from (CMD_START_SPC :: prepareBufferForSending
                (copy_out img 2 (Z.to_nat ZERO_PAGE_SIZE)))).
  destruct (writeAndWait_open_fail cmd w0 d rest Hd) as (w1 & E1 & Hw1).
  exists w1. split.
  - unfold loadSPC, catch, bind. cbv zeta. fold cmd. rewrite E1. reflexivity.
  - rewrite Hw1. unfold cmd. now rewrite loadSPC_zero_page_bytes by exact Himg.
Qed.

Lemma loadSPC_zero_page_refused_witness :
  exists w',
    loadSPC (fun _ => 0) (mkPort true [] [EvData [3]; EvData [1]] []) =
      (Rejected (PError "Error loading SPC data: Unknown error"),
       mkPort true w' [EvData [1]] []) /\
    length (written w') = 239%nat.
Proof.
  destruct (loadSPC_zero_page_refused (fun _ => 0) [] [3] [EvData [1]]
              ltac:(intros; lia) ltac:(discriminate)) as (w' & E & Hw).
  exists w'. split; [exact E|]. rewrite Hw. vm_compute. reflexivity.
Defined.

(** ** Extra properties of [SpcWriter] *)

Lemma writeBootLoader_buffer (w : SpcWriter) (h : heap) (w' : SpcWriter) (h' : heap) :
  h !! BootLoader = Some BootLoader_bytes ->
  writeBootLoader w h = inr (w', h') ->
  let pd := programData (spc w) in
  let dsp := dspRegisters (spc w) in
  bootLoaderOffset w' = findBootLoaderAddress pd 47 /\
  h' !! length h = Some
    (<[41%nat := ToUint8 (pd 0xF2)]> (<[38%nat := ToUint8 (dsp 0x47)]>
    (<[32%nat := ToUint8 (dsp 0x6C)]> (<[26%nat := ToUint8 (Z.land (pd 0xF1) 0xCF)]>
    (<[22%nat := ToUint8 (pd 0xF7)]> (<[16%nat := ToUint8 (pd 0xF4)]>
    (<[4%nat := ToUint8 (pd 1)]> (<[1%nat := ToUint8 (pd 0)]> BootLoader_bytes)))))))).
Proof.
  intros Ht H. unfold writeBootLoader in H.
  assert (Hbl : buf h BootLoader = BootLoader_bytes) by (unfold buf; now rewrite Ht).
  rewrite Hbl in H.
  destruct (_ =? -1); [discriminate|].
  simpl in H. injection H as <- <-. split; [reflexivity|].
  assert (Hlt : (BootLoader < length h)%nat) by (eapply lookup_lt_Some; eauto).
  set (h1 := h ++ [replicate (length BootLoader_bytes) 0]).
  assert (H1 : h1 !! length h = Some (replicate (length BootLoader_bytes) 0)).
  { unfold h1. rewrite lookup_app_r by lia. now rewrite Nat.sub_diag. }
  assert (Hb1 : buf h1 BootLoader = BootLoader_bytes).
  { unfold buf, h1. rewrite lookup_app_l by exact Hlt. now rewrite Ht. }
  pose proof (buf_copy_eq h1 BootLoader (length h) _ H1) as H2.
  rewrite Hb1 in H2. change (take _ BootLoader_bytes ++ drop _ _) with BootLoader_bytes in H2.
  do 8 (apply buf_store_eq).
  exact H2.
Qed.

Lemma writeDspLoader_buffer (w : SpcWriter) (h : heap) :
  h !! DspLoader = Some DspLoader_bytes ->
  let pd := programData (spc w) in
  (writeDspLoader w h).2 !! length h = Some
    (<[24%nat := ToUint8 (stackPointer w)]> (<[21%nat := ToUint8 (pd 0xFA)]>
    (<[18%nat := ToUint8 (pd 0xFB)]> (<[15%nat := ToUint8 (pd 0xFC)]> DspLoader_bytes)))).
Proof.
  intros Ht. unfold writeDspLoader.
  assert (Hbl : buf h DspLoader = DspLoader_bytes) by (unfold buf; now rewrite Ht).
  rewrite Hbl. cbv beta iota zeta delta [snd alloc].
  assert (Hlt : (DspLoader < length h)%nat) by (eapply lookup_lt_Some; eauto).
  set (h1 := h ++ [replicate (length DspLoader_bytes) 0]).
  assert (H1 : h1 !! length h = Some (replicate (length DspLoader_bytes) 0)).
  { unfold h1. rewrite lookup_app_r by lia. now rewrite Nat.sub_diag. }
  assert (Hb1 : buf h1 DspLoader = DspLoader_bytes).
  { unfold buf, h1. rewrite lookup_app_l by exact Hlt. now rewrite Ht. }
  pose proof (buf_copy_eq h1 DspLoader (length h) _ H1) as H2.
  rewrite Hb1 in H2. change (take _ DspLoader_bytes ++ drop _ _) with DspLoader_bytes in H2.
  do 4 (apply buf_store_eq).
  exact H2.
Qed.

Lemma load_buffers (w0 : SpcWriter) (s : ISpc) (h : heap) (w : SpcWriter) (h' : heap) :
  h !! BootLoader = Some BootLoader_bytes -> h !! DspLoader = Some DspLoader_bytes ->
  load w0 s h = inr (w, h') ->
  let pd := programData s in
  let dsp := dspRegisters s in
  bootLoader w = Some (length h) /\ dspLoader w = Some (S (length h)) /\
  bootLoaderOffset w = findBootLoaderAddress pd 47 /\
  h' !! length h = Some
    (<[41%nat := ToUint8 (pd 0xF2)]> (<[38%nat := ToUint8 (dsp 0x47)]>
    (<[32%nat := ToUint8 (dsp 0x6C)]> (<[26%nat := ToUint8 (Z.land (pd 0xF1) 0xCF)]>
    (<[22%nat := ToUint8 (pd 0xF7)]> (<[16%nat := ToUint8 (pd 0xF4)]>
    (<[4%nat := ToUint8 (pd 1)]> (<[1%nat := ToUint8 (pd 0)]> BootLoader_bytes)))))))) /\
  h' !! S (length h) = Some
    (<[24%nat := ToUint8 (regSP s - 6)]> (<[21%nat := ToUint8 (pd 0xFA)]>
    (<[18%nat := ToUint8 (pd 0xFB)]> (<[15%nat := ToUint8 (pd 0xFC)]> DspLoader_bytes)))).
Proof.
  intros Hb Hd Hload.
  pose proof (load_frame _ _ _ _ _ Hload) as (Hbl & Hdl & _ & _ & _).
  unfold load in Hload.
  destruct (writeBootLoader _ h) as [e|[w2 h2]] eqn:HB; [discriminate|].
  pose proof (writeDspLoader_frame w2 h2) as Hw.
  pose proof (writeDspLoader_buffer w2 h2) as HD.
  destruct (writeDspLoader w2 h2) as [w3 h3].
  injection Hload as <- <-.
  destruct Hw as (_ & Hs3 & Hsp3 & _ & Hoff3 & Hfr).
  pose proof (writeBootLoader_frame _ _ _ _ HB) as (_ & Hs2 & Hsp2 & _ & Hlen & Hfr2).
  destruct (writeBootLoader_buffer _ _ _ _ Hb HB) as [Hoff HBL].
  simpl in Hoff, HBL, Hs2, Hsp2.
  split; [exact Hbl|]. split; [exact Hdl|].
  split; [congruence|].
  split.
  - rewrite Hfr by lia. exact HBL.
  - simpl in HD. rewrite Hlen in HD. rewrite HD.
    + rewrite Hs2, Hsp2. reflexivity.
    + rewrite Hfr2 by (eapply lookup_lt_Some; exact Hd). exact Hd.
Qed.

(** [load] fails only through [writeBootLoader]'s search. *)
Lemma load_inl (w0 : SpcWriter) (s : ISpc) (h : heap) (e : throw_msg) :
  load w0 s h = inl e ->
  e = "Unable to find space to place boot loader" /\
  findBootLoaderAddress (programData s) (Z.of_nat (length (buf h BootLoader))) = -1.
Proof.
  unfold load, writeBootLoader. simpl.
  destruct (Z.eqb_spec (findBootLoaderAddress (programData s)
              (Z.of_nat (length (buf h BootLoader)))) (-1)) as [E|E].
  - intros [= <-]. now split.
  - destruct (alloc h (length (buf h BootLoader))). discriminate.
Qed.

Lemma load_found (w0 : SpcWriter) (s : ISpc) (h : heap) (w : SpcWriter) (h' : heap) :
  load w0 s h = inr (w, h') ->
  findBootLoaderAddress (programData s) (Z.of_nat (length (buf h BootLoader))) <> -1.
Proof.
  unfold load, writeBootLoader. simpl.
  destruct (Z.eqb_spec (findBootLoaderAddress (programData s)
              (Z.of_nat (length (buf h BootLoader)))) (-1)) as [E|E]; [discriminate|].
  intros _. exact E.
Qed.

(** The scan of [findBootLoaderAddress] runs to [i] on a uniform run. *)
Lemma scan_run_reaches (d : image) (i : Z) (n : nat) (j : Z) :
  j <= i -> i - j <= Z.of_nat n -> (forall k, j <= k < i -> d k = d i) ->
  scan_run n d i j = i.
Proof.
  revert j; induction n as [|f IH]; intros j Hj Hn Hu; simpl; [lia|].
  destruct (Z.ltb_spec j i) as [Hlt|Hge]; [|lia].
  rewrite (Hu j) by lia. rewrite Z.eqb_refl. simpl.
  apply IH; [lia | lia |]. intros k Hk. apply Hu. lia.
Qed.

(** The search stops at the first uniform window it meets going down. *)
Lemma find_loop_above (d : image) (len : Z) (fuel : nat) (i i' : Z) :
  0 <= len -> LOWEST_BOOTABLE_ADDRESS + len < i' <= i -> i - i' < Z.of_nat fuel ->
  (forall k, i' - len <= k <= i' -> d k = d i') ->
  i' - len <= find_loop fuel d len i.
Proof.
  intros Hlen. revert i; induction fuel as [|f IH]; intros i Hi Hf Hu; [lia|].
  simpl. replace (LOWEST_BOOTABLE_ADDRESS + len <? i) with true
    by (symmetry; apply Z.ltb_lt; lia).
  destruct (Z.eq_dec i i') as [->|Hne].
  - rewrite (Hu (i' - len)) by lia. rewrite Z.eqb_refl.
    rewrite scan_run_reaches by (try rewrite Z2Nat.id; try lia; intros; apply Hu; lia).
    rewrite Z.eqb_refl. lia.
  - assert (Hrec : i' - len <= find_loop f d len (i - 1)) by (apply IH; [lia | lia | exact Hu]).
    destruct (d i =? d (i - len)); [|exact Hrec].
    match goal with |- context [if ?c =? i then _ else _] => destruct (c =? i) end;
      [lia | exact Hrec].
Qed.

Lemma bootLoader_bytes_ok : Forall (fun x => 0 <= x < 256) BootLoader_bytes.
Proof. unfold BootLoader_bytes. repeat constructor; lia. Qed.

Lemma ToUint8_range (v : Z) : 0 <= ToUint8 v < 256.
Proof. unfold ToUint8. apply Z.mod_pos_bound. lia. Qed.

Lemma blit_below (src : list Z) (m : image) (pos x : Z) :
  x < pos -> blit src m pos x = m x.
Proof.
  revert m pos; induction src as [|b r IH]; intros m pos Hx; simpl; [reflexivity|].
  rewrite IH by lia. apply store_other. lia.
Qed.

Lemma blit_at (src : list Z) (m : image) (pos : Z) (k : nat) :
  (k < length src)%nat -> 0 <= pos -> pos + Z.of_nat (length src) <= IMAGE_SIZE ->
  blit src m pos (pos + Z.of_nat k) = ToUint8 (nth k src 0).
Proof.
  revert m pos k; induction src as [|b r IH]; intros m pos k Hk H0 H1; simpl in *; [lia|].
  destruct k as [|k].
  - rewrite Z.add_0_r, blit_below by lia. apply store_same. lia.
  - replace (pos + Z.of_nat (S k)) with ((pos + 1) + Z.of_nat k) by lia.
    apply IH; lia.
Qed.

Definition spc_flat (sp : Z) : ISpc := mkSpc (fun _ => 0) (fun _ => 0) 1 2 3 4 0x1234 sp.
Definition writer_init (s : ISpc) : SpcWriter := mkWriter s None 0 0 None.
Definition loaded (s : ISpc) : SpcWriter * heap :=
  match load (writer_init s) s heap0 with
  | inr r => r
  | inl _ => (writer_init s, heap0)
  end.

(** X17. After [load], the boot loader buffer is the template with exactly
    eight bytes replaced: [0x01 <- programData[0x00]],
    [0x04 <- programData[0x01]], [0x10 <- programData[0xF4]],
    [0x16 <- programData[0xF7]], [0x1A <- programData[0xF1] & 0xCF],
    [0x20 <- dspRegisters[0x6C]], [0x26 <- dspRegisters[0x47]] and
    [0x29 <- programData[0xF2]], each as a byte. *)
Theorem load_bootLoader_patched (w0 : SpcWriter) (s : ISpc) (h : heap)
    (w : SpcWriter) (h' : heap)
    (Hb : h !! BootLoader = Some BootLoader_bytes)
    (Hd : h !! DspLoader = Some DspLoader_bytes)
    (Hload : load w0 s h = inr (w, h')) :
  let pd := programData s in
  let dsp := dspRegisters s in
  exists l b, bootLoader w = Some l /\ h' !! l = Some b /\
    length b = length BootLoader_bytes /\
    b !! 0x01%nat = Some (ToUint8 (pd 0x00)) /\ b !! 0x04%nat = Some (ToUint8 (pd 0x01)) /\
    b !! 0x10%nat = Some (ToUint8 (pd 0xF4)) /\ b !! 0x16%nat = Some (ToUint8 (pd 0xF7)) /\
    b !! 0x1A%nat = Some (ToUint8 (Z.land (pd 0xF1) 0xCF)) /\
    b !! 0x20%nat = Some (ToUint8 (dsp 0x6C)) /\ b !! 0x26%nat = Some (ToUint8 (dsp 0x47)) /\
    b !! 0x29%nat = Some (ToUint8 (pd 0xF2)) /\
    forall j, ~ In j [0x01; 0x04; 0x10; 0x16; 0x1A; 0x20; 0x26; 0x29]%nat ->
      b !! j = BootLoader_bytes !! j.
Proof.
  destruct (load_buffers _ _ _ _ _ Hb Hd Hload) as (Hbl & _ & _ & HB & _).
  intros pd dsp. do 2 eexists. split; [exact Hbl|]. split; [exact HB|].
  split; [reflexivity|].
  do 8 (split; [reflexivity|]).
  intros j Hj.
  rewrite !list_lookup_insert_ne; [reflexivity|..];
    intros E; apply Hj; rewrite <- E; simpl; tauto.
Qed.

Lemma load_bootLoader_patched_witness :
  load (writer_init (spc_flat 0xEF)) (spc_flat 0xEF) heap0 =
    inr (loaded (spc_flat 0xEF)) /\
  exists l b, bootLoader (loaded (spc_flat 0xEF)).1 = Some l /\
    (loaded (spc_flat 0xEF)).2 !! l = Some b /\ b !! 0x1A%nat = Some 0.
Proof.
  assert (Hl : load (writer_init (spc_flat 0xEF)) (spc_flat 0xEF) heap0 =
                 inr ((loaded (spc_flat 0xEF)).1, (loaded (spc_flat 0xEF)).2))
    by (vm_compute; reflexivity).
  split; [exact Hl|].
  destruct (load_bootLoader_patched (writer_init (spc_flat 0xEF)) (spc_flat 0xEF) heap0 _ _ eq_refl eq_refl Hl)
    as (l & b & H1 & H2 & _ & _ & _ & _ & _ & H26 & _).
  exists l, b. split; [exact H1|]. split; [exact H2|]. exact H26.
Defined.

(** X18. After [load], the DSP loader buffer is the template with exactly
    four bytes replaced: [0x0F <- programData[0xFC]],
    [0x12 <- programData[0xFB]], [0x15 <- programData[0xFA]] and
    [0x18 <- regSP - 6], each as a byte ([regSP - 6] wraps to
    [regSP + 250] when [regSP < 6]). *)
Theorem load_dspLoader_patched (w0 : SpcWriter) (s : ISpc) (h : heap)
    (w : SpcWriter) (h' : heap)
    (Hb : h !! BootLoader = Some BootLoader_bytes)
    (Hd : h !! DspLoader = Some DspLoader_bytes)
    (Hload : load w0 s h = inr (w, h')) :
  let pd := programData s in
  exists l b, dspLoader w = Some l /\ h' !! l = Some b /\
    length b = length DspLoader_bytes /\
    b !! 0x0F%nat = Some (ToUint8 (pd 0xFC)) /\ b !! 0x12%nat = Some (ToUint8 (pd 0xFB)) /\
    b !! 0x15%nat = Some (ToUint8 (pd 0xFA)) /\ b !! 0x18%nat = Some (ToUint8 (regSP s - 6)) /\
    forall j, ~ In j [0x0F; 0x12; 0x15; 0x18]%nat -> b !! j = DspLoader_bytes !! j.
Proof.
  destruct (load_buffers _ _ _ _ _ Hb Hd Hload) as (_ & Hdl & _ & _ & HD).
  intros pd. do 2 eexists. split; [exact Hdl|]. split; [exact HD|].
  split; [reflexivity|].
  do 4 (split; [reflexivity|]).
  intros j Hj.
  rewrite !list_lookup_insert_ne; [reflexivity|..];
    intros E; apply Hj; rewrite <- E; simpl; tauto.
Qed.

Lemma load_dspLoader_patched_witness :
  load (writer_init (spc_flat 2)) (spc_flat 2) heap0 = inr (loaded (spc_flat 2)) /\
  exists l b, dspLoader (loaded (spc_flat 2)).1 = Some l /\
    (loaded (spc_flat 2)).2 !! l = Some b /\ b !! 0x18%nat = Some 252.
Proof.
  assert (Hl : load (writer_init (spc_flat 2)) (spc_flat 2) heap0 =
                 inr ((loaded (spc_flat 2)).1, (loaded (spc_flat 2)).2))
    by (vm_compute; reflexivity).
  split; [exact Hl|].
  destruct (load_dspLoader_patched (writer_init (spc_flat 2)) (spc_flat 2) heap0 _ _ eq_refl eq_refl Hl)
    as (l & b & H1 & H2 & _ & _ & _ & _ & H18 & _).
  exists l, b. split; [exact H1|]. split; [exact H2|]. exact H18.
Defined.

(** X19. The search returns the highest window: whenever the bytes
    [[i - size, i]] are all equal for some [i] in
    [(LOWEST_BOOTABLE_ADDRESS + size, HIGHEST_BOOTABLE_ADDRESS]], the
    result is at least [i - size] (in particular it is not -1). *)
Theorem findBootLoaderAddress_highest (d : image) (len i : Z)
    (Hlen : 0 <= len)
    (Hi : LOWEST_BOOTABLE_ADDRESS + len < i <= HIGHEST_BOOTABLE_ADDRESS)
    (Hu : forall k, i - len <= k <= i -> d k = d i) :
  i - len <= findBootLoaderAddress d len.
Proof.
  unfold findBootLoaderAddress. apply find_loop_above; try assumption.
  unfold HIGHEST_BOOTABLE_ADDRESS, LOWEST_BOOTABLE_ADDRESS in *. lia.
Qed.

Lemma findBootLoaderAddress_highest_witness :
  0x8000 - 47 <= findBootLoaderAddress (fun a => if a <=? 0x8000 then 0 else a) 47.
Proof.
  apply findBootLoaderAddress_highest;
    [lia | unfold LOWEST_BOOTABLE_ADDRESS, HIGHEST_BOOTABLE_ADDRESS; lia |].
  intros k Hk. replace (k <=? 0x8000) with true by (symmetry; apply Z.leb_le; lia).
  reflexivity.
Defined.

(** X20. [load] fails only with "Unable to find space to place boot loader",
    and only when no window [[i - size, i]] of equal bytes exists for [i] in
    [(LOWEST_BOOTABLE_ADDRESS + size, HIGHEST_BOOTABLE_ADDRESS]]. *)
Theorem load_fails_without_space (w0 : SpcWriter) (s : ISpc) (h : heap) (e : throw_msg)
    (Hload : load w0 s h = inl e) :
  let len := Z.of_nat (length (buf h BootLoader)) in
  e = "Unable to find space to place boot loader" /\
  forall i, LOWEST_BOOTABLE_ADDRESS + len < i <= HIGHEST_BOOTABLE_ADDRESS ->
    ~ (forall k, i - len <= k <= i -> programData s k = programData s i).
Proof.
  intros len. destruct (load_inl _ _ _ _ Hload) as [He Hf].
  split; [exact He|]. intros i Hi Hu.
  assert (H := find_loop_above (programData s) len (Z.to_nat HIGHEST_BOOTABLE_ADDRESS)
                 HIGHEST_BOOTABLE_ADDRESS i ltac:(lia) Hi).
  unfold findBootLoaderAddress in Hf. fold len in Hf.
  rewrite Hf in H. unfold HIGHEST_BOOTABLE_ADDRESS, LOWEST_BOOTABLE_ADDRESS in *.
  specialize (H ltac:(lia) Hu). lia.
Qed.

Definition spc_distinct : ISpc := mkSpc (fun a => a) (fun _ => 0) 1 2 3 4 0x1234 0xEF.

Lemma load_fails_without_space_witness :
  load (writer_init spc_distinct) spc_distinct heap0 =
    inl "Unable to find space to place boot loader" /\
  forall i, LOWEST_BOOTABLE_ADDRESS + 47 < i <= HIGHEST_BOOTABLE_ADDRESS ->
    ~ (forall k, i - 47 <= k <= i -> programData spc_distinct k = programData spc_distinct i).
Proof.
  assert (Hl : load (writer_init spc_distinct) spc_distinct heap0 =
                 inl "Unable to find space to place boot loader")
    by (vm_compute; reflexivity).
  split; [exact Hl|].
  exact (proj2 (load_fails_without_space _ _ _ _ Hl)).
Defined.

(** X21. The image built by [SpcWriter.play] holds the patched boot loader
    at [bootLoaderOffset]: byte [k] of the buffer is at
    [bootLoaderOffset + k], unless that address is one of the six bytes of
    the return frame [0x100 + SP - 6 + 1 .. + 6] (the search can place the
    boot loader in the stack page, where the frame then overwrites it). *)
Theorem play_image_holds_bootLoader (w0 : SpcWriter) (s : ISpc) (h : heap)
    (w : SpcWriter) (h' : heap)
    (Hb : h !! BootLoader = Some BootLoader_bytes)
    (Hd : h !! DspLoader = Some DspLoader_bytes)
    (Hload : load w0 s h = inr (w, h')) (k : nat)
    (Hk : (k < length BootLoader_bytes)%nat)
    (Hout : bootLoaderOffset w + Z.of_nat k < 0x100 + (regSP s - 6) + 1 \/
            0x100 + (regSP s - 6) + 6 < bootLoaderOffset w + Z.of_nat k) :
  Some (play_image w h' (bootLoaderOffset w + Z.of_nat k)) =
  buf h' (default 0%nat (bootLoader w)) !! k.
Proof.
  pose proof (load_frame _ _ _ _ _ Hload) as (_ & _ & Hs & Hsp & _).
  pose proof (load_found _ _ _ _ _ Hload) as Hf.
  destruct (load_buffers _ _ _ _ _ Hb Hd Hload) as (Hbl & _ & Hoff & HB & _).
  assert (Hlen : buf h BootLoader = BootLoader_bytes) by (unfold buf; now rewrite Hb).
  rewrite Hlen in Hf. change (Z.of_nat (length BootLoader_bytes)) with 47 in Hf.
  assert (HF := find_loop_spec (programData s) 47 (Z.to_nat HIGHEST_BOOTABLE_ADDRESS)
                  HIGHEST_BOOTABLE_ADDRESS ltac:(lia)).
  cbv zeta in HF. fold (findBootLoaderAddress (programData s) 47) in HF.
  rewrite <- Hoff in HF, Hf.
  destruct HF as [E|(Hlo & Hhi & _)]; [contradiction|].
  unfold LOWEST_BOOTABLE_ADDRESS, HIGHEST_BOOTABLE_ADDRESS in *.
  unfold play_image, finalize_image. rewrite Hbl, Hs, Hsp. unfold buf.
  change (default 0%nat (Some (length h))) with (length h). rewrite HB.
  change (default [] (Some ?b)) with b.
  set (B := <[41%nat := _]> _).
  assert (HBb : Forall (fun x => 0 <= x < 256) B).
  { unfold B. repeat apply Forall_insert; try apply ToUint8_range.
    exact bootLoader_bytes_ok. }
  assert (HBl : length B = 47%nat) by reflexivity.
  change (length BootLoader_bytes) with 47%nat in Hk.
  cbv zeta. rewrite !store_other by lia.
  rewrite blit_at by (rewrite ?HBl; unfold IMAGE_SIZE; lia).
  destruct (lookup_lt_is_Some_2 B k) as [x Hx]; [lia|].
  rewrite Hx. rewrite (nth_lookup_Some B k 0 x Hx).
  rewrite ToUint8_small; [reflexivity|].
  rewrite Forall_lookup in HBb. exact (HBb k x Hx).
Qed.

Lemma play_image_holds_bootLoader_witness :
  load (writer_init (spc_flat 0xEF)) (spc_flat 0xEF) heap0 =
    inr (loaded (spc_flat 0xEF)) /\
  Some (play_image (loaded (spc_flat 0xEF)).1 (loaded (spc_flat 0xEF)).2
          (bootLoaderOffset (loaded (spc_flat 0xEF)).1 + Z.of_nat 0)) =
  buf (loaded (spc_flat 0xEF)).2 (default 0%nat (bootLoader (loaded (spc_flat 0xEF)).1))
    !! 0%nat.
Proof.
  assert (Hl : load (writer_init (spc_flat 0xEF)) (spc_flat 0xEF) heap0 =
                 inr ((loaded (spc_flat 0xEF)).1, (loaded (spc_flat 0xEF)).2))
    by (vm_compute; reflexivity).
  split; [exact Hl|].
  apply (play_image_holds_bootLoader (writer_init (spc_flat 0xEF)) (spc_flat 0xEF) heap0
           _ _ eq_refl eq_refl Hl 0).
  - simpl. lia.
  - right. vm_compute. reflexivity.
Defined.

(** X22. With [regSP <= 4] the return frame that [SpcWriter.play] writes at
    [0x100 + (regSP - 6) + 1 .. + 6] reaches down to address [0xFF] and
    overwrites the stack pointer stored there: [programData[0xFF]] ends up
    holding the frame byte [5 - regSP] (one of [A, X, Y, PSW, PC & 0xFF]),
    not [regSP - 6]. *)
Theorem play_image_low_sp (w0 : SpcWriter) (s : ISpc) (h0 : heap)
    (w : SpcWriter) (h : heap)
    (Hsp : 0 <= regSP s <= 4) (Hload : load w0 s h0 = inr (w, h)) :
  play_image w h 0xFF =
  ToUint8 (nth (Z.to_nat (4 - regSP s))
                 [regA s; regX s; regY s; regPSW s; Z.land (regPC s) 0xFF] 0).
Proof.
  apply load_frame in Hload as (_ & _ & Hs & Hst & _).
  unfold play_image, finalize_image. rewrite Hs, Hst. cbv zeta.
  assert (Hc : regSP s = 0 \/ regSP s = 1 \/ regSP s = 2 \/ regSP s = 3 \/ regSP s = 4)
    by lia.
  destruct Hc as [E|[E|[E|[E|E]]]]; rewrite E; read_store; reflexivity.
Qed.

Lemma play_image_low_sp_witness :
  load (writer_init (spc_flat 2)) (spc_flat 2) heap0 = inr (loaded (spc_flat 2)) /\
  play_image (loaded (spc_flat 2)).1 (loaded (spc_flat 2)).2 0xFF = 3.
Proof.
  assert (Hl : load (writer_init (spc_flat 2)) (spc_flat 2) heap0 =
                 inr ((loaded (spc_flat 2)).1, (loaded (spc_flat 2)).2))
    by (vm_compute; reflexivity).
  split; [exact Hl|].
  rewrite (play_image_low_sp (writer_init (spc_flat 2)) (spc_flat 2) heap0 _ _
             ltac:(simpl; lia) Hl).
  reflexivity.
Defined.
